(** * Shallow embedding of the [ec2_elb_tag] and [boto3_wait] Ansible modules

    Source files:
    - [cloud/amazon/ec2_elb_tag.py]  (tag reconciliation on a load balancer)
    - [cloud/amazon/boto3_wait.py]   (polling of a boto3 waiter)

    Both modules are straight-line Python around calls into boto3.  The
    embedding keeps the Python data as it is (insertion-ordered dictionaries
    with string keys, dynamically typed scalar values, lists of key/value
    records) and threads the provider's state together with a log of the API
    calls through a small state-and-failure monad. *)

From Stdlib Require Import ZArith String Ascii DecimalString.
From stdpp Require Import base decidable option list strings.

Local Open Scope string_scope.
Local Open Scope list_scope.

(** ** Python values *)

Module Py.

(** Scalars that can reach the module through its [dict] typed parameters.
    Strings are character strings throughout (no byte/unicode distinction);
    floats and nested containers as tag values are left out. *)
Inductive pyval : Type :=
| PyStr (s : string)
| PyInt (z : Z)
| PyBool (b : bool)
| PyNone.

(** [str(v)] *)
Definition py_str (v : pyval) : string :=
  match v with
  | PyStr s => s
  | PyInt z => NilZero.string_of_int (Z.to_int z)
  | PyBool true => "True"
  | PyBool false => "False"
  | PyNone => "None"
  end.

(** Exceptions that the two modules can meet. *)
Inductive exn : Type :=
| ClientError (msg : string)
| NoRegionError
| WaiterError (msg : string)
| TypeError (msg : string)
| ValueError (msg : string)
| IndexError (msg : string)
| KeyError (msg : string)
| OtherError (msg : string).

(** [e.message] *)
Definition message (e : exn) : string :=
  match e with
  | ClientError m | WaiterError m | TypeError m
  | ValueError m | IndexError m | KeyError m | OtherError m => m
  | NoRegionError => "You must specify a region."
  end.

(** *** Dictionaries with string keys

    A [dict] is kept as the list of its items in insertion order, which is
    the order in which [for key in d] visits them (the order that Python
    guarantees from version 3.7 on).  A well-formed dictionary holds every
    key once ([dict_wf]). *)

Definition dict (V : Type) : Type := list (string * V).

Definition keys {V} (d : dict V) : list string := d.*1.

Definition dict_wf {V} (d : dict V) : Prop := NoDup (keys d).

(** [d[k]], [None] standing for the [KeyError] *)
Fixpoint dict_get {V} (d : dict V) (k : string) : option V :=
  match d with
  | [] => None
  | (k', v) :: d' => if bool_decide (k' = k) then Some v else dict_get d' k
  end.

(** [k in d] *)
Definition dict_mem {V} (k : string) (d : dict V) : bool :=
  bool_decide (is_Some (dict_get d k)).

(** [d[k] = v]: an existing key keeps its place, a new key goes last. *)
Fixpoint dict_set {V} (d : dict V) (k : string) (v : V) : dict V :=
  match d with
  | [] => [(k, v)]
  | (k', v') :: d' =>
      if bool_decide (k' = k) then (k, v) :: d' else (k', v') :: dict_set d' k v
  end.

(** [dict(pairs)]: later pairs override earlier ones. *)
Definition dict_of_pairs {V} (l : list (string * V)) : dict V :=
  foldl (fun d p => dict_set d p.1 p.2) [] l.

(** [d.update(seq)] for a sequence argument: every element is turned into a
    sequence itself and has to have length two (CPython's
    [PyDict_MergeFromSeq2]); its first component becomes the key and its
    second the value.  An element that is a dictionary is a sequence of its
    keys. *)
Fixpoint dict_update_seq (d : dict string) (seq : list (list string))
  : exn + dict string :=
  match seq with
  | [] => inr d
  | [k; v] :: seq' => dict_update_seq (dict_set d k v) seq'
  | _ :: _ => inl (ValueError "dictionary update sequence element has wrong length; 2 is required")
  end.

(** A list comprehension [[x for x in l if cond(x)]] whose condition may
    raise: elements are tested from left to right and the first exception
    aborts the comprehension. *)
Fixpoint comprehension {A} (cond : A -> exn + bool) (l : list A)
  : exn + list A :=
  match l with
  | [] => inr []
  | x :: l' =>
      match cond x with
      | inl e => inl e
      | inr b =>
          match comprehension cond l' with
          | inl e => inl e
          | inr r => inr (if b then x :: r else r)
          end
      end
  end.

(** Computations that return or raise. *)
Definition ebind {A B} (m : exn + A) (f : A -> exn + B) : exn + B :=
  match m with
  | inl e => inl e
  | inr a => f a
  end.

Notation "x <-! m ; k" := (ebind m (fun x => k))
  (at level 100, m at next level, right associativity, only parsing).

(** [[f(x) for x in l]] with an [f] that may raise. *)
Fixpoint emap {A B} (f : A -> exn + B) (l : list A) : exn + list B :=
  match l with
  | [] => inr []
  | x :: l' => y <-! f x; r <-! emap f l'; inr (y :: r)
  end.

(** [d[k]] as an expression: a missing key raises [KeyError]. *)
Definition subscript {V} (d : dict V) (k : string) : exn + V :=
  match dict_get d k with
  | Some v => inr v
  | None => inl (KeyError k)
  end.

(** The operations below act on a module parameter of type [dict] that was
    left out by the caller and therefore holds [None]. *)

(** [for key in d] *)
Definition py_iter {V} (d : option (dict V)) : exn + list string :=
  match d with
  | Some d => inr (keys d)
  | None => inl (TypeError "'NoneType' object is not iterable")
  end.

(** [k in d] *)
Definition py_contains {V} (k : string) (d : option (dict V)) : exn + bool :=
  match d with
  | Some d => inr (dict_mem k d)
  | None => inl (TypeError "argument of type 'NoneType' is not iterable")
  end.

(** [d[k]] *)
Definition py_subscript {V} (d : option (dict V)) (k : string) : exn + V :=
  match d with
  | Some d => subscript d k
  | None => inl (TypeError "'NoneType' object is not subscriptable")
  end.

End Py.

(** ** The module's run: provider state, call log, termination

    A run of [main] threads a [world]: the state of the provider behind the
    boto3 client and the list of API calls issued so far (oldest first).  It
    ends in [module.exit_json] ([Ret]), in [module.fail_json] ([FailJson])
    or with an exception that nothing catches ([Raise]). *)

Module Ansible.
Import Py.

Record world (S E : Type) : Type := World { provider : S; calls : list E }.
Arguments World {S E} _ _.
Arguments provider {S E} _.
Arguments calls {S E} _.

Inductive result (A : Type) : Type :=
| Ret (a : A)
| FailJson (msg : string)
| Raise (e : exn).
Arguments Ret {A} _.
Arguments FailJson {A} _.
Arguments Raise {A} _.

Definition M (S E A : Type) : Type := world S E -> result A * world S E.

Section Monad.
Context {S E : Type}.

Definition ret {A} (a : A) : M S E A := fun w => (Ret a, w).

Definition bind {A B} (m : M S E A) (f : A -> M S E B) : M S E B :=
  fun w =>
    match m w with
    | (Ret a, w') => f a w'
    | (FailJson msg, w') => (FailJson msg, w')
    | (Raise e, w') => (Raise e, w')
    end.

(** [module.fail_json(msg=...)] leaves through [SystemExit], which no
    [except] clause of the two modules catches. *)
Definition fail_json {A} (msg : string) : M S E A := fun w => (FailJson msg, w).

Definition raise {A} (e : exn) : M S E A := fun w => (Raise e, w).

Definition lift {A} (r : exn + A) : M S E A :=
  match r with
  | inl e => raise e
  | inr a => ret a
  end.

(** [try: m  except <clause>: h e]; [h e = None] when the clause does not
    match [e]. *)
Definition try_except {A} (m : M S E A) (h : exn -> option (M S E A)) : M S E A :=
  fun w =>
    match m w with
    | (Raise e, w') =>
        match h e with
        | Some k => k w'
        | None => (Raise e, w')
        end
    | r => r
    end.

(** One call into the provider: it is logged, then it returns a value and
    a new provider state, or raises and leaves the state as it was. *)
Definition api {A} (ev : E) (op : S -> exn + (A * S)) : M S E A :=
  fun w =>
    let log := calls w ++ [ev] in
    match op (provider w) with
    | inl e => (Raise e, World (provider w) log)
    | inr (a, s') => (Ret a, World s' log)
    end.
End Monad.

Notation "x <- m ;; k" := (bind m (fun x => k))
  (at level 100, m at next level, right associativity, only parsing).

(** The double quote character, for the messages that contain it. *)
Definition dq : string := String "034"%char EmptyString.

End Ansible.

(** ** [cloud/amazon/ec2_elb_tag.py] *)

Module Ec2ElbTag.
Import Py Ansible.

(** One element of [Tags]: [{'Key': ..., 'Value': ...}]. *)
Record tag : Type := Tag { Key : string; Value : string }.

#[global] Instance tag_eq_dec : EqDecision tag.
Proof. solve_decision. Defined.

(** The record as the Python dictionary it is. *)
Definition tag_dict (t : tag) : dict string :=
  [("Key", Key t); ("Value", Value t)].

(** The response of [describe_tags]. *)
Record tag_description : Type :=
  TagDescription { LoadBalancerName : string; Tags : list tag }.
Record response : Type := Response { TagDescriptions : list tag_description }.

(** The calls of the ELB client that the module uses.  [remove_tags] takes
    records that hold a ['Key'] only, kept here as the list of the keys. *)
Record elb_client (S : Type) : Type := ElbClient {
  describe_tags : list string -> S -> exn + response;
  add_tags : list string -> list tag -> S -> exn + S;
  remove_tags : list string -> list string -> S -> exn + S
}.
Arguments describe_tags {S} _ _ _.
Arguments add_tags {S} _ _ _ _.
Arguments remove_tags {S} _ _ _ _.

(** What the module sees of boto3: whether the import succeeded, and
    [boto3.client(service, region_name=..., aws_access_key_id=...,
    aws_secret_access_key=...)]. *)
Record boto3 (S : Type) : Type := Boto3 {
  HAS_BOTO3 : bool;
  client : string -> option string -> option string -> option string
           -> exn + elb_client S
}.
Arguments HAS_BOTO3 {S} _.
Arguments client {S} _ _ _ _ _.

(** The API calls as they are logged. *)
Inductive api_call : Type :=
| DescribeTags (LoadBalancerNames : list string)
| AddTags (LoadBalancerNames : list string) (tags : list tag)
| RemoveTags (LoadBalancerNames : list string) (tag_keys : list string).

#[global] Instance api_call_eq_dec : EqDecision api_call.
Proof. solve_decision. Defined.

Definition mutating (c : api_call) : bool :=
  match c with
  | DescribeTags _ => false
  | AddTags _ _ | RemoveTags _ _ => true
  end.

(** [state], restricted by [choices=['present', 'absent', 'list']]. *)
Inductive state_choice : Type := present | absent | list_tags.

(** [module.params] and [module.check_mode]. *)
Record ansible_module : Type := AnsibleModule {
  param_name : string;
  param_state : state_choice;
  param_region : option string;
  param_aws_access_key : option string;
  param_aws_secret_key : option string;
  param_tags : option (dict pyval);
  check_mode : bool
}.

(** The value handed to [exit_json] as [tags]: a dictionary on every path
    but one, which hands over a list of records. *)
Inductive tags_value : Type :=
| TagsDict (d : dict string)
| TagsList (l : list tag).

Definition region_msg : string :=
  "You must specify a region. You can also configure your region by running "
  +:+ dq +:+ "aws configure" +:+ dq +:+ ".".

Section Main.
Context {S : Type}.

Abbreviation run := (M S api_call).

(** [response['TagDescriptions'][0]['Tags']] *)
Definition first_tags (r : response) : exn + list tag :=
  match TagDescriptions r with
  | [] => inl (IndexError "list index out of range")
  | td :: _ => inr (Tags td)
  end.

Definition get_lb_tags (elb : elb_client S) (name : string) : run (dict string) :=
  response <-
    try_except
      (api (DescribeTags [name])
           (fun s => r <-! describe_tags elb [name] s; inr (r, s)))
      (fun e => match e with
                | ClientError msg => Some (fail_json msg)
                | _ => None
                end) ;;
  tags <- lift (first_tags response) ;;
  ret (dict_of_pairs (map (fun tag => (Key tag, Value tag)) tags)).

(** [key not in actual_tags or actual_tags[key] != str(tags[key])] *)
Definition needs_add (actual_tags : dict string) (tags : option (dict pyval))
    (key : string) : exn + bool :=
  if negb (dict_mem key actual_tags) then inr true
  else
    a <-! subscript actual_tags key;
    t <-! py_subscript tags key;
    inr (negb (bool_decide (a = py_str t))).

(** [key in tags and actual_tags[key] == str(tags[key])] *)
Definition needs_remove (actual_tags : dict string) (tags : option (dict pyval))
    (key : string) : exn + bool :=
  b <-! py_contains key tags;
  if b then
    a <-! subscript actual_tags key;
    t <-! py_subscript tags key;
    inr (bool_decide (a = py_str t))
  else inr false.

Definition is_nonempty {A} (l : list A) : bool :=
  match l with [] => false | _ :: _ => true end.

Definition main (b : boto3 S) (module : ansible_module)
  : run (bool * tags_value) :=
  if negb (HAS_BOTO3 b) then fail_json "boto3 is required for this module"
  else
    let changed := false in
    let name := param_name module in
    let state := param_state module in
    let region := param_region module in
    let aws_access_key := param_aws_access_key module in
    let aws_secret_key := param_aws_secret_key module in
    let tags := param_tags module in
    elb <-
      try_except
        (lift (client b "elb" region aws_access_key aws_secret_key))
        (fun e => match e with
                  | NoRegionError => Some (fail_json region_msg)
                  | _ => None
                  end) ;;
    actual_tags <- get_lb_tags elb name ;;
    match state with
    | present =>
        tag_keys_to_add <-
          lift (ks <-! py_iter tags;
                comprehension (needs_add actual_tags tags) ks) ;;
        if is_nonempty tag_keys_to_add then
          tags_to_add <-
            lift (emap (fun key => t <-! py_subscript tags key;
                                   inr (Tag key (py_str t)))
                       tag_keys_to_add) ;;
          if negb (check_mode module) then
            _ <- api (AddTags [name] tags_to_add)
                   (fun s => s' <-! add_tags elb [name] tags_to_add s;
                             inr (tt, s')) ;;
            actual_tags <- get_lb_tags elb name ;;
            ret (true, TagsDict actual_tags)
          else
            actual_tags <-
              lift (dict_update_seq actual_tags
                      (map (fun t => keys (tag_dict t)) tags_to_add)) ;;
            ret (true, TagsDict actual_tags)
        else ret (changed, TagsDict actual_tags)
    | absent =>
        tag_keys_to_remove <-
          lift (comprehension (needs_remove actual_tags tags)
                  (keys actual_tags)) ;;
        if is_nonempty tag_keys_to_remove then
          if negb (check_mode module) then
            _ <- api (RemoveTags [name] tag_keys_to_remove)
                   (fun s => s' <-! remove_tags elb [name] tag_keys_to_remove s;
                             inr (tt, s')) ;;
            actual_tags <- get_lb_tags elb name ;;
            ret (true, TagsDict actual_tags)
          else
            actual_tags <-
              lift (emap (fun key => v <-! subscript actual_tags key;
                                     inr (Tag key (py_str (PyStr v))))
                      (filter (fun key => key ∉ tag_keys_to_remove)
                              (keys actual_tags))) ;;
            ret (true, TagsList actual_tags)
        else ret (changed, TagsDict actual_tags)
    | list_tags => ret (changed, TagsDict actual_tags)
    end.
End Main.

End Ec2ElbTag.

(** ** [cloud/amazon/boto3_wait.py] *)

Module Boto3Wait.
Import Py Ansible.

(** [waiter.config] *)
Record waiter_config : Type := WaiterConfig { delay : Z; max_attempts : Z }.

(** What one check of the waiter's condition reports. *)
Inductive check_state : Type :=
| CheckSuccess
| CheckRetry
| CheckFailure (reason : string).

(** A waiter: its configuration and the operation that checks the condition
    once, over the network. *)
Record waiter (S : Type) : Type := Waiter {
  config : waiter_config;
  operation : dict pyval -> S -> exn + (check_state * S)
}.
Arguments Waiter {S} _ _.
Arguments config {S} _.
Arguments operation {S} _ _ _.

(** The client of a service: [client.waiter_names] and
    [client.get_waiter(name)]. *)
Record service_client (S : Type) : Type := ServiceClient {
  waiter_names : list string;
  get_waiter : string -> exn + waiter S
}.
Arguments waiter_names {S} _.
Arguments get_waiter {S} _ _.

Record boto3 (S : Type) : Type := Boto3 {
  HAS_BOTO3 : bool;
  client : string -> option string -> option string -> option string
           -> exn + service_client S
}.
Arguments HAS_BOTO3 {S} _.
Arguments client {S} _ _ _ _ _.

(** What a run does outside the process: one check of the condition, or a
    pause between two checks. *)
Inductive event : Type :=
| ConditionCheck (waiter_name : string) (parameters : dict pyval)
| Sleep (seconds : Z).

Definition is_check (e : event) : bool :=
  match e with
  | ConditionCheck _ _ => true
  | Sleep _ => false
  end.

Record ansible_module : Type := AnsibleModule {
  param_service : string;
  param_until : string;
  param_parameters : dict pyval;
  param_delay : option Z;
  param_max_attempts : option Z;
  param_region : option string;
  param_aws_access_key : option string;
  param_aws_secret_key : option string
}.

(** ['Waiter "{}" does not exist in "{}" client.'.format(until, service)] *)
Definition unknown_waiter_msg (until service : string) : string :=
  "Waiter " +:+ dq +:+ until +:+ dq +:+ " does not exist in "
  +:+ dq +:+ service +:+ dq +:+ " client.".

Section Main.
Context {S : Type}.

Abbreviation run := (M S event).

(** Modelled from the spec: the polling loop of [waiter.wait], which is
    botocore's and not part of the repository.  The condition is checked up
    to [max_attempts] times with a pause of [delay] between two checks; a
    success ends the wait, a terminal failure and the exhaustion of the
    attempts raise. *)
Fixpoint poll (attempts : nat) (until : string) (w : waiter S)
    (parameters : dict pyval) : run unit :=
  match attempts with
  | O => raise (WaiterError "Max attempts exceeded")
  | Datatypes.S n =>
      st <- api (ConditionCheck until parameters) (operation w parameters) ;;
      match st with
      | CheckSuccess => ret tt
      | CheckFailure reason => raise (WaiterError reason)
      | CheckRetry =>
          match n with
          | O => raise (WaiterError "Max attempts exceeded")
          | _ =>
              _ <- api (Sleep (delay (config w))) (fun s => inr (tt, s)) ;;
              poll n until w parameters
          end
      end
  end.

(** [waiter.wait( **parameters )] *)
Definition wait (until : string) (w : waiter S) (parameters : dict pyval)
  : run unit :=
  poll (Z.to_nat (max_attempts (config w))) until w parameters.

Definition main (b : boto3 S) (module : ansible_module) : run bool :=
  if negb (HAS_BOTO3 b) then fail_json "boto3 is required for this module"
  else
    let service := param_service module in
    let until := param_until module in
    let parameters := param_parameters module in
    let delay := param_delay module in
    let max_attempts := param_max_attempts module in
    let region := param_region module in
    let aws_access_key := param_aws_access_key module in
    let aws_secret_key := param_aws_secret_key module in
    _ <-
      try_except
        (client <- lift (client b service region aws_access_key aws_secret_key) ;;
         _ <- (if negb (bool_decide (until ∈ waiter_names client))
               then fail_json (unknown_waiter_msg until service)
               else ret tt) ;;
         waiter <- lift (get_waiter client until) ;;
         let waiter :=
           match delay with
           | Some d =>
               Waiter (WaiterConfig d (Boto3Wait.max_attempts (config waiter)))
                      (operation waiter)
           | None => waiter
           end in
         let waiter :=
           match max_attempts with
           | Some m =>
               Waiter (WaiterConfig (Boto3Wait.delay (config waiter)) m)
                      (operation waiter)
           | None => waiter
           end in
         wait until waiter parameters)
        (fun e => Some (fail_json (message e))) ;;
    ret false.
End Main.

End Boto3Wait.

(** ** Observations on a run of the tag module *)

Module TagRun.
Import Py Ansible Ec2ElbTag.

(** The dictionary that [get_lb_tags] makes of a list of records. *)
Definition as_dict (tags : list tag) : dict string :=
  dict_of_pairs (map (fun tag => (Key tag, Value tag)) tags).

(** The dictionary that [get_lb_tags] builds from the provider's answer in
    state [s], when there is one. *)
Definition fetch {S} (elb : elb_client S) (name : string) (s : S)
  : option (dict string) :=
  match describe_tags elb [name] s with
  | inr r =>
      match first_tags r with
      | inr tags => Some (as_dict tags)
      | inl _ => None
      end
  | inl _ => None
  end.

(** The mutating calls of a log. *)
Definition mutations (log : list api_call) : list api_call :=
  filter (fun c => mutating c) log.

(** The keys of the value handed to [exit_json]. *)
Definition tags_keys (t : tags_value) : list string :=
  match t with
  | TagsDict d => keys d
  | TagsList l => map Key l
  end.

(** [d] with the tags of [l] laid over it, later tags winning. *)
Definition overlay (d : dict string) (l : list tag) : dict string :=
  foldl (fun d t => dict_set d (Key t) (Value t)) d l.

(** The lists that the comprehensions of [main] build when [tags] holds a
    dictionary, written without the exceptions that cannot occur then. *)
Definition keys_to_add (actual : dict string) (desired : dict pyval) : list string :=
  filter (fun k => dict_get actual k <> (py_str <$> dict_get desired k))
         (keys desired).

Definition tags_to_add (actual : dict string) (desired : dict pyval) : list tag :=
  omap (fun k => (fun dv => Tag k (py_str dv)) <$> dict_get desired k)
       (keys_to_add actual desired).

Definition keys_to_remove (actual : dict string) (desired : dict pyval) : list string :=
  filter (fun k => is_Some (dict_get desired k)
                   /\ dict_get actual k = (py_str <$> dict_get desired k))
         (keys actual).

Definition remaining (actual : dict string) (removed : list string) : list tag :=
  omap (fun k => Tag k <$> dict_get actual k)
       (filter (fun k => k ∉ removed) (keys actual)).

(** What the module relies on when it fetches the tags again after a
    mutation: a successful [add_tags] lays the tags over the ones the load
    balancer had, a successful [remove_tags] takes the keys away and leaves
    the other tags alone. *)
Record lawful {S} (elb : elb_client S) (name : string) : Prop := Lawful {
  add_tags_overlays :
    forall l s s' a a',
      add_tags elb [name] l s = inr s' ->
      fetch elb name s = Some a -> fetch elb name s' = Some a' ->
      forall k, dict_get a' k = dict_get (overlay a l) k;
  remove_tags_removes :
    forall ks s s' a a',
      remove_tags elb [name] ks s = inr s' ->
      fetch elb name s = Some a -> fetch elb name s' = Some a' ->
      forall k, dict_get a' k = if bool_decide (k ∈ ks) then None else dict_get a k
}.

(** The calls that a run from [w] to [w'] has added to the log. *)
Definition issued {S} (w w' : world S api_call) : list api_call :=
  drop (length (calls w)) (calls w').

(** The load balancers that a call addresses. *)
Definition targets (c : api_call) : list string :=
  match c with
  | DescribeTags names | AddTags names _ | RemoveTags names _ => names
  end.

(** The value that [tags] holds for a key, whichever shape it has; a list
    of records is read the way [get_lb_tags] reads one. *)
Definition tags_lookup (t : tags_value) (k : string) : option string :=
  match t with
  | TagsDict d => dict_get d k
  | TagsList l => dict_get (as_dict l) k
  end.

End TagRun.

(** ** A provider to run the tag module against *)

Module MemElb.
Import Py Ansible Ec2ElbTag.

(** The provider's state: the tag list of every load balancer, by name. *)
Definition store : Type := dict (list tag).

Definition no_such_lb (name : string) : exn :=
  ClientError ("There is no ACTIVE Load Balancer named '" +:+ name +:+ "'").

Definition lookup_lb (s : store) (name : string) : exn + list tag :=
  match dict_get s name with
  | Some tags => inr tags
  | None => inl (no_such_lb name)
  end.

(** Modelled from the spec: the [describeTags], [addTags] and [removeTags]
    operations of the Cloud API Client collaborator, which stand for boto3's
    ELB client and are not part of the repository.  Adding a tag replaces
    the tags that have its key; removing a key that does not exist does
    nothing. *)
Definition mem_describe_tags (names : list string) (s : store) : exn + response :=
  tds <-! emap (fun name => tags <-! lookup_lb s name;
                            inr (TagDescription name tags))
               names;
  inr (Response tds).

Definition put_tag (tags : list tag) (t : tag) : list tag :=
  filter (fun t' => Key t' <> Key t) tags ++ [t].

Definition mem_add_tags (names : list string) (tags : list tag) (s : store)
  : exn + store :=
  foldl (fun acc name =>
           s <-! acc;
           old <-! lookup_lb s name;
           inr (dict_set s name (foldl put_tag old tags)))
        (inr s) names.

Definition mem_remove_tags (names : list string) (tag_keys : list string) (s : store)
  : exn + store :=
  foldl (fun acc name =>
           s <-! acc;
           old <-! lookup_lb s name;
           inr (dict_set s name (filter (fun t => Key t ∉ tag_keys) old)))
        (inr s) names.

Definition mem_client : elb_client store :=
  ElbClient store mem_describe_tags mem_add_tags mem_remove_tags.

(** A boto3 that is installed and whose client needs a region. *)
Definition mem_boto3 : boto3 store :=
  Ec2ElbTag.Boto3 store true
    (fun service region _ _ =>
       match region with
       | Some _ => inr mem_client
       | None => inl NoRegionError
       end).

Definition start (s : store) : world store api_call := World s [].




(** A boto3 whose client cannot be built for a reason other than the
    region. *)
Definition broken_boto3 : boto3 store :=
  Ec2ElbTag.Boto3 store true
    (fun service region _ _ => inl (OtherError "Unknown service: 'elb'")).

(** A provider that answers with no tag description at all, and one that
    cannot be reached. *)
Definition silent_client : elb_client store :=
  ElbClient store (fun _ _ => inr (Response [])) mem_add_tags mem_remove_tags.

Definition unreachable_client : elb_client store :=
  ElbClient store (fun _ _ => inl (OtherError "Could not connect to the endpoint URL"))
    mem_add_tags mem_remove_tags.

(** The module's parameters for the load balancer [my-lb] in [us-east-1]. *)
Definition on_my_lb (state : state_choice) (tags : option (dict pyval))
    (check_mode : bool) : ansible_module :=
  Ec2ElbTag.AnsibleModule "my-lb" state (Some "us-east-1") None None tags check_mode.

End MemElb.

(** ** Observations on a run of the wait module *)

Module WaitRun.
Import Py Ansible Boto3Wait.



End WaitRun.

(** ** A provider to run the wait module against *)

Module MemWait.
Import Py Ansible Boto3Wait.

(** The provider's state: how many checks of the condition still report that
    the cluster is starting. *)
Definition pending : Type := nat.

Definition check_cluster (parameters : dict pyval) (s : pending)
  : exn + (check_state * pending) :=
  match dict_get parameters "ClusterId" with
  | None => inl (OtherError "Missing required parameter in input: ClusterId")
  | Some _ =>
      match s with
      | O => inr (CheckSuccess, O)
      | Datatypes.S n => inr (CheckRetry, n)
      end
  end.

Definition emr_client : service_client pending :=
  ServiceClient pending
    ["cluster_running"; "step_complete"; "cluster_terminated"]
    (fun name => inr (Waiter (WaiterConfig 30 60) check_cluster)).

Definition mem_boto3 : boto3 pending :=
  Boto3Wait.Boto3 pending true (fun service _ _ _ => inr emr_client).



Definition call (until : string) (delay max_attempts : option Z) : ansible_module :=
  Boto3Wait.AnsibleModule "emr" until [("ClusterId", PyStr "j-XXXXXXXXXXXXXXX")]
    delay max_attempts (Some "us-east-1") None None.

End MemWait.

(** * Properties *)

(** ** Dictionaries *)

Section DictFacts.
Import Py.
Context {V : Type}.
Implicit Types (d : dict V) (k : string) (v : V).

Lemma dict_get_set d k v k' :
  dict_get (dict_set d k v) k' = if bool_decide (k = k') then Some v else dict_get d k'.
Proof.
  induction d as [|[k0 v0] d IH]; simpl.
  - reflexivity.
  - destruct (bool_decide_reflect (k0 = k)) as [->|Hne]; simpl.
    + destruct (bool_decide (k = k')); reflexivity.
    + rewrite IH.
      destruct (bool_decide_reflect (k0 = k')) as [->|?]; [|reflexivity].
      rewrite bool_decide_eq_false_2; congruence.
Qed.

Lemma dict_get_is_Some d k : is_Some (dict_get d k) <-> k ∈ keys d.
Proof.
  unfold keys. induction d as [|[k0 v0] d IH]; simpl.
  - split; [intros [? [=]] | intros H; inversion H].
  - rewrite elem_of_cons, <- IH.
    destruct (bool_decide_reflect (k0 = k)) as [->|Hne].
    + split; eauto.
    + split; [auto | intros [?|?]; congruence].
Qed.

Lemma dict_get_None d k : dict_get d k = None <-> k ∉ keys d.
Proof. rewrite <- dict_get_is_Some, eq_None_not_Some. reflexivity. Qed.

Lemma dict_mem_spec k d : dict_mem k d = true <-> k ∈ keys d.
Proof. unfold dict_mem. rewrite bool_decide_eq_true. apply dict_get_is_Some. Qed.

Lemma subscript_key d k : k ∈ keys d -> exists v, dict_get d k = Some v /\ subscript d k = inr v.
Proof.
  intros [v Hv]%dict_get_is_Some. exists v. unfold subscript. rewrite Hv. auto.
Qed.

Lemma keys_dict_set d k v :
  keys (dict_set d k v) = if bool_decide (k ∈ keys d) then keys d else keys d ++ [k].
Proof.
  unfold keys. induction d as [|[k0 v0] d IH]; [reflexivity|].
  cbn [dict_set]. rewrite (fmap_cons fst (k0, v0) d). cbn [fst].
  destruct (bool_decide_reflect (k0 = k)) as [->|Hne].
  - rewrite bool_decide_eq_true_2 by apply list_elem_of_here. reflexivity.
  - rewrite fmap_cons, IH. cbn [fst].
    destruct (bool_decide_reflect (k ∈ d.*1)) as [Hin|Hnin].
    + rewrite bool_decide_eq_true_2 by (apply list_elem_of_further, Hin). reflexivity.
    + rewrite bool_decide_eq_false_2; [reflexivity|].
      rewrite elem_of_cons. intros [?|?]; congruence.
Qed.

Lemma dict_set_wf d k v : dict_wf d -> dict_wf (dict_set d k v).
Proof.
  unfold dict_wf. intros Hd. rewrite keys_dict_set.
  destruct (bool_decide_reflect (k ∈ keys d)) as [?|Hnin]; [assumption|].
  apply NoDup_app. split; [assumption|]. split.
  - intros x Hx ->%list_elem_of_singleton. contradiction.
  - apply NoDup_singleton.
Qed.

Lemma foldl_dict_set_wf {A} (f : A -> string) (g : A -> V) (l : list A) d :
  dict_wf d -> dict_wf (foldl (fun d x => dict_set d (f x) (g x)) d l).
Proof.
  revert d. induction l as [|x l IH]; simpl; intros d Hd; [assumption|].
  apply IH, dict_set_wf, Hd.
Qed.

Lemma dict_of_pairs_wf (l : list (string * V)) : dict_wf (dict_of_pairs l).
Proof. apply (foldl_dict_set_wf fst snd). apply NoDup_nil_2. Qed.

End DictFacts.

Section ComprehensionFacts.
Import Py.
Context {A B : Type}.

Lemma comprehension_filter (cond : A -> exn + bool) (P : A -> Prop)
    `{forall x, Decision (P x)} (l : list A) :
  (forall x, x ∈ l -> cond x = inr (bool_decide (P x))) ->
  comprehension cond l = inr (filter P l).
Proof.
  induction l as [|x l IH]; simpl; intros Hc; [reflexivity|].
  rewrite (Hc x) by apply list_elem_of_here.
  rewrite IH by (intros y Hy; apply Hc, list_elem_of_further, Hy).
  rewrite filter_cons. destruct (decide (P x)) as [HP|HP].
  - rewrite (bool_decide_eq_true_2 _ HP). reflexivity.
  - rewrite (bool_decide_eq_false_2 _ HP). reflexivity.
Qed.

Lemma emap_omap (f : A -> exn + B) (g : A -> option B) (l : list A) :
  (forall x, x ∈ l -> exists y, g x = Some y /\ f x = inr y) ->
  emap f l = inr (omap g l) /\ length (omap g l) = length l.
Proof.
  induction l as [|x l IH]; simpl; intros Hf; [auto|].
  destruct (Hf x) as (y & Hg & Hy); [apply list_elem_of_here|].
  destruct IH as [IH1 IH2]; [intros z Hz; apply Hf, list_elem_of_further, Hz|].
  rewrite Hy, Hg. simpl. rewrite IH1. simpl. auto.
Qed.

Lemma emap_map (f : A -> exn + B) (g : A -> B) (l : list A) :
  (forall x, x ∈ l -> f x = inr (g x)) ->
  emap f l = inr (map g l).
Proof.
  induction l as [|x l IH]; simpl; intros H; [reflexivity|].
  rewrite (H x) by apply list_elem_of_here. simpl.
  rewrite IH by (intros y Hy; apply H, list_elem_of_further, Hy).
  reflexivity.
Qed.

End ComprehensionFacts.

(** ** The steps of the tag module *)

Section TagRunFacts.
Import Py Ansible Ec2ElbTag TagRun.
Context {S : Type}.
Implicit Types (b : boto3 S) (elb : elb_client S) (w : world S api_call).
Implicit Types (actual : dict string) (desired : dict pyval).

(** [get_lb_tags] issues one [describe_tags], reports a [ClientError] through
    [fail_json], lets any other exception through and turns the answer into a
    dictionary. *)
Lemma get_lb_tags_eq elb name w :
  get_lb_tags elb name w =
  (match describe_tags elb [name] (provider w) with
   | inl (ClientError msg) => FailJson msg
   | inl e => Raise e
   | inr r =>
       match first_tags r with
       | inl e => Raise e
       | inr tags => Ret (dict_of_pairs (map (fun tag => (Key tag, Value tag)) tags))
       end
   end,
   World (provider w) (calls w ++ [DescribeTags [name]])).
Proof.
  unfold get_lb_tags, bind, try_except, api, lift, ebind, fail_json, raise, ret.
  destruct (describe_tags elb [name] (provider w)) as [e|r].
  - destruct e; reflexivity.
  - destruct (first_tags r); reflexivity.
Qed.

Lemma get_lb_tags_fetch elb name w a :
  fetch elb name (provider w) = Some a ->
  get_lb_tags elb name w
  = (Ret a, World (provider w) (calls w ++ [DescribeTags [name]])).
Proof.
  unfold fetch. rewrite get_lb_tags_eq.
  destruct (describe_tags elb [name] (provider w)) as [e|r]; [discriminate|].
  destruct (first_tags r); [discriminate|]. intros [= <-]. reflexivity.
Qed.

Lemma get_lb_tags_Ret elb name w a w' :
  get_lb_tags elb name w = (Ret a, w') ->
  fetch elb name (provider w) = Some a /\ dict_wf a
  /\ w' = World (provider w) (calls w ++ [DescribeTags [name]]).
Proof.
  unfold fetch. rewrite get_lb_tags_eq.
  destruct (describe_tags elb [name] (provider w)) as [e|r].
  - destruct e; discriminate.
  - destruct (first_tags r); [discriminate|]. intros [= <- <-].
    split; [reflexivity|]. split; [apply dict_of_pairs_wf | reflexivity].
Qed.

Lemma get_lb_tags_no_fetch elb name w :
  fetch elb name (provider w) = None ->
  exists r, get_lb_tags elb name w
            = (r, World (provider w) (calls w ++ [DescribeTags [name]]))
            /\ forall a, r <> Ret a.
Proof.
  unfold fetch. rewrite get_lb_tags_eq.
  destruct (describe_tags elb [name] (provider w)) as [e|r].
  - intros _. eexists. split; [reflexivity|]. destruct e; discriminate.
  - destruct (first_tags r); [|discriminate].
    intros _. eexists. split; [reflexivity|]. discriminate.
Qed.

(** *** The [present] branch *)

Lemma present_keys actual desired :
  comprehension (needs_add actual (Some desired)) (keys desired)
  = inr (keys_to_add actual desired).
Proof.
  apply comprehension_filter. intros k Hk.
  destruct (subscript_key desired k Hk) as (dv & Hdv & Hsub).
  unfold needs_add. rewrite Hdv. simpl.
  destruct (dict_mem k actual) eqn:Hm; simpl.
  - apply dict_mem_spec in Hm.
    destruct (subscript_key actual k Hm) as (a & Ha & Hsa).
    rewrite Hsa, Ha. simpl. rewrite Hsub. simpl. f_equal.
    destruct (bool_decide_reflect (a = py_str dv)) as [->|Hne]; simpl.
    + rewrite bool_decide_eq_false_2; [reflexivity|]. intros Hn; apply Hn; reflexivity.
    + rewrite bool_decide_eq_true_2; [reflexivity|]. congruence.
  - assert (dict_get actual k = None) as ->.
    { apply dict_get_None. rewrite <- dict_mem_spec. congruence. }
    rewrite bool_decide_eq_true_2; [reflexivity|]. discriminate.
Qed.

Lemma keys_to_add_desired actual desired k :
  k ∈ keys_to_add actual desired -> k ∈ keys desired.
Proof. unfold keys_to_add. rewrite list_elem_of_filter. tauto. Qed.

Lemma present_tags actual desired :
  emap (fun key => t <-! py_subscript (Some desired) key; inr (Tag key (py_str t)))
       (keys_to_add actual desired)
  = inr (tags_to_add actual desired)
  /\ length (tags_to_add actual desired) = length (keys_to_add actual desired).
Proof.
  apply emap_omap. intros k Hk%keys_to_add_desired.
  destruct (subscript_key desired k Hk) as (dv & Hdv & Hsub).
  exists (Tag k (py_str dv)). simpl. rewrite Hdv, Hsub. auto.
Qed.

Lemma dict_set_twice {V} (d : dict V) k v :
  dict_set (dict_set d k v) k v = dict_set d k v.
Proof.
  induction d as [|[k0 v0] d IH]; simpl.
  - rewrite bool_decide_eq_true_2; reflexivity.
  - destruct (bool_decide_reflect (k0 = k)) as [->|Hne]; simpl.
    + rewrite bool_decide_eq_true_2; reflexivity.
    + rewrite bool_decide_eq_false_2 by assumption. rewrite IH. reflexivity.
Qed.

Lemma update_with_records_fixed (l : list tag) d :
  dict_set d "Key" "Value" = d ->
  dict_update_seq d (map (fun t => keys (tag_dict t)) l) = inr d.
Proof.
  intros Hd. induction l as [|t l IH]; simpl; [reflexivity|].
  rewrite Hd. apply IH.
Qed.

(** Laying a list of [{'Key': k, 'Value': v}] records over a dictionary with
    [update] reads each record as the pair of its two keys: whatever [k] and
    [v] are, the entry that is set is ["Key"] with the value ["Value"]. *)
Lemma update_with_records actual (l : list tag) :
  dict_update_seq actual (map (fun t => keys (tag_dict t)) l)
  = inr (match l with
         | [] => actual
         | _ :: _ => dict_set actual "Key" "Value"
         end).
Proof.
  destruct l as [|t l]; [reflexivity|]. simpl.
  apply update_with_records_fixed, dict_set_twice.
Qed.

Lemma tags_to_add_spec actual desired k v :
  Tag k v ∈ tags_to_add actual desired <->
  exists dv, dict_get desired k = Some dv /\ v = py_str dv
             /\ dict_get actual k <> Some (py_str dv).
Proof.
  unfold tags_to_add, keys_to_add. rewrite list_elem_of_omap. split.
  - intros (k' & [Hne Hin]%list_elem_of_filter & Heq).
    destruct (dict_get desired k') as [dv|] eqn:Hdv; [|discriminate].
    simpl in *. injection Heq as <- <-. eauto.
  - intros (dv & Hdv & -> & Hne). exists k. rewrite list_elem_of_filter, Hdv. simpl.
    split; [|reflexivity]. split; [assumption|].
    apply dict_get_is_Some. eauto.
Qed.

(** *** The [absent] branch *)

Lemma absent_keys actual desired :
  comprehension (needs_remove actual (Some desired)) (keys actual)
  = inr (keys_to_remove actual desired).
Proof.
  apply comprehension_filter. intros k Hk.
  destruct (subscript_key actual k Hk) as (a & Ha & Hsa).
  unfold needs_remove. simpl. rewrite Ha.
  destruct (dict_mem k desired) eqn:Hm.
  - apply dict_mem_spec in Hm.
    destruct (subscript_key desired k Hm) as (dv & Hdv & Hsub).
    rewrite Hsa, Hdv. simpl. rewrite Hsub. simpl. f_equal.
    destruct (bool_decide_reflect (a = py_str dv)) as [->|Hne].
    + rewrite bool_decide_eq_true_2; eauto.
    + rewrite bool_decide_eq_false_2; [reflexivity|]. intros [_ ?]. congruence.
  - rewrite bool_decide_eq_false_2; [reflexivity|].
    intros [Hsome%dict_get_is_Some%dict_mem_spec _]. congruence.
Qed.

Lemma absent_remaining actual (removed : list string) :
  emap (fun key => v <-! subscript actual key; inr (Tag key (py_str (PyStr v))))
       (filter (fun key => key ∉ removed) (keys actual))
  = inr (remaining actual removed).
Proof.
  apply emap_omap. intros k [_ Hk]%list_elem_of_filter.
  destruct (subscript_key actual k Hk) as (a & Ha & Hsa).
  exists (Tag k a). rewrite Ha, Hsa. auto.
Qed.

Lemma keys_to_remove_spec actual desired k :
  k ∈ keys_to_remove actual desired <->
  exists a dv, dict_get actual k = Some a /\ dict_get desired k = Some dv
               /\ a = py_str dv.
Proof.
  unfold keys_to_remove. rewrite list_elem_of_filter. split.
  - intros [[[dv Hdv] Heq] Hin]. rewrite Hdv in Heq. simpl in Heq. eauto.
  - intros (a & dv & Ha & Hdv & ->). rewrite Hdv, Ha. simpl.
    split; [eauto|]. apply dict_get_is_Some. eauto.
Qed.

Lemma remaining_keys actual removed :
  map Key (remaining actual removed) = filter (fun k => k ∉ removed) (keys actual).
Proof.
  unfold remaining.
  assert (forall l : list string, (forall k, k ∈ l -> k ∈ keys actual) ->
            map Key (omap (fun k => Tag k <$> dict_get actual k) l) = l) as Hgo.
  { induction l as [|k l IH]; intros Hl; [reflexivity|]. simpl.
    destruct (proj2 (dict_get_is_Some actual k)) as [a Ha]; [apply Hl, list_elem_of_here|].
    rewrite Ha. simpl. f_equal. apply IH. intros k' Hk'. apply Hl, list_elem_of_further, Hk'. }
  apply Hgo. intros k [_ Hk]%list_elem_of_filter. exact Hk.
Qed.

(** *** [main], once boto3 is there and the client is built *)

Section Reached.
Variables (b : boto3 S) (elb : elb_client S) (module : ansible_module).
Hypothesis has_boto3 : HAS_BOTO3 b = true.
Hypothesis client_built :
  client b "elb" (param_region module) (param_aws_access_key module)
         (param_aws_secret_key module) = inr elb.

Let name := param_name module.

(** The world after the first fetch. *)
Let fetched w : world S api_call :=
  World (provider w) (calls w ++ [DescribeTags [name]]).

Lemma main_fetch_failed w :
  fetch elb name (provider w) = None ->
  exists r, main b module w = (r, fetched w) /\ forall x, r <> Ret x.
Proof.
  intros Hf. destruct (get_lb_tags_no_fetch elb name w Hf) as (r & Hr & Hne).
  unfold main. rewrite has_boto3, client_built. cbn [negb].
  unfold bind at 1. unfold try_except, lift, ret at 1.
  unfold bind at 1. fold name. rewrite Hr.
  destruct r as [a|msg|e].
  - destruct (Hne a). reflexivity.
  - eexists. split; [reflexivity|]. discriminate.
  - eexists. split; [reflexivity|]. discriminate.
Qed.

Lemma main_list w actual :
  param_state module = list_tags ->
  fetch elb name (provider w) = Some actual ->
  main b module w = (Ret (false, TagsDict actual), fetched w).
Proof.
  intros Hs Hf. unfold main. rewrite has_boto3, client_built, Hs. cbn [negb].
  unfold bind at 1. unfold try_except, lift, ret at 1.
  unfold bind. fold name. rewrite (get_lb_tags_fetch _ _ _ _ Hf). reflexivity.
Qed.

Lemma main_present w actual desired :
  param_state module = present ->
  param_tags module = Some desired ->
  fetch elb name (provider w) = Some actual ->
  main b module w =
  match tags_to_add actual desired with
  | [] => (Ret (false, TagsDict actual), fetched w)
  | _ :: _ =>
      if check_mode module
      then (Ret (true, TagsDict (dict_set actual "Key" "Value")), fetched w)
      else
        let log := calls (fetched w) ++ [AddTags [name] (tags_to_add actual desired)] in
        match add_tags elb [name] (tags_to_add actual desired) (provider w) with
        | inl e => (Raise e, World (provider w) log)
        | inr s' =>
            bind (get_lb_tags elb name) (fun a => ret (true, TagsDict a))
                 (World s' log)
        end
  end.
Proof.
  intros Hs Ht Hf. unfold main. rewrite has_boto3, client_built, Hs, Ht. cbn [negb].
  unfold bind at 1. unfold try_except, lift at 1, ret at 1.
  unfold bind at 1. fold name. rewrite (get_lb_tags_fetch _ _ _ _ Hf).
  cbn [py_iter ebind]. rewrite present_keys.
  destruct (present_tags actual desired) as [Hemap Hlen].
  unfold bind at 1. cbn [lift ret].
  destruct (keys_to_add actual desired) as [|k ks] eqn:Hk.
  - destruct (tags_to_add actual desired); [reflexivity|discriminate].
  - cbn [is_nonempty]. rewrite Hemap. unfold bind at 1. cbn [lift ret].
    destruct (tags_to_add actual desired) as [|t ts] eqn:Hts; [discriminate|].
    destruct (check_mode module); cbn [negb].
    + rewrite update_with_records. reflexivity.
    + unfold bind at 1. unfold api, ebind. cbn [provider calls].
      destruct (add_tags elb [name] (t :: ts) (provider w)); reflexivity.
Qed.

Lemma main_absent w actual desired :
  param_state module = absent ->
  param_tags module = Some desired ->
  fetch elb name (provider w) = Some actual ->
  main b module w =
  match keys_to_remove actual desired with
  | [] => (Ret (false, TagsDict actual), fetched w)
  | _ :: _ =>
      if check_mode module
      then (Ret (true, TagsList (remaining actual (keys_to_remove actual desired))),
            fetched w)
      else
        let log := calls (fetched w)
                   ++ [RemoveTags [name] (keys_to_remove actual desired)] in
        match remove_tags elb [name] (keys_to_remove actual desired) (provider w) with
        | inl e => (Raise e, World (provider w) log)
        | inr s' =>
            bind (get_lb_tags elb name) (fun a => ret (true, TagsDict a))
                 (World s' log)
        end
  end.
Proof.
  intros Hs Ht Hf. unfold main. rewrite has_boto3, client_built, Hs, Ht. cbn [negb].
  unfold bind at 1. unfold try_except, lift at 1, ret at 1.
  unfold bind at 1. fold name. rewrite (get_lb_tags_fetch _ _ _ _ Hf).
  rewrite absent_keys. unfold bind at 1. cbn [lift ret].
  destruct (keys_to_remove actual desired) as [|k ks] eqn:Hk; [reflexivity|].
  cbn [is_nonempty]. destruct (check_mode module); cbn [negb].
  - rewrite absent_remaining. reflexivity.
  - unfold bind at 1. unfold api, ebind. cbn [provider calls].
    destruct (remove_tags elb [name] (k :: ks) (provider w)); reflexivity.
Qed.

(** With [tags] left out, [present] fails on [for key in tags] ... *)
Lemma main_present_omitted w actual :
  param_state module = present ->
  param_tags module = None ->
  fetch elb name (provider w) = Some actual ->
  main b module w
  = (Raise (TypeError "'NoneType' object is not iterable"), fetched w).
Proof.
  intros Hs Ht Hf. unfold main. rewrite has_boto3, client_built, Hs, Ht. cbn [negb].
  unfold bind at 1. unfold try_except, lift at 1, ret at 1.
  unfold bind at 1. fold name. rewrite (get_lb_tags_fetch _ _ _ _ Hf).
  reflexivity.
Qed.

(** ... and [absent] fails on [key in tags], which is evaluated for the
    first key of [actual_tags] and not at all when there is none. *)
Lemma main_absent_omitted w actual :
  param_state module = absent ->
  param_tags module = None ->
  fetch elb name (provider w) = Some actual ->
  main b module w
  = (match actual with
     | [] => Ret (false, TagsDict [])
     | _ :: _ => Raise (TypeError "argument of type 'NoneType' is not iterable")
     end, fetched w).
Proof.
  intros Hs Ht Hf. unfold main. rewrite has_boto3, client_built, Hs, Ht. cbn [negb].
  unfold bind at 1. unfold try_except, lift at 1, ret at 1.
  unfold bind at 1. fold name. rewrite (get_lb_tags_fetch _ _ _ _ Hf).
  destruct actual as [|[k v] actual]; reflexivity.
Qed.

End Reached.

(** The second fetch: one more [describe_tags] and nothing else. *)
Lemma refetch_world elb name w :
  (bind (get_lb_tags elb name) (fun a => ret (true, TagsDict a)) w).2
  = World (provider w) (calls w ++ [DescribeTags [name]]).
Proof.
  unfold bind. rewrite get_lb_tags_eq.
  destruct (describe_tags elb [name] (provider w)) as [e|r].
  - destruct e; reflexivity.
  - destruct (first_tags r); reflexivity.
Qed.

Lemma refetch_Ret elb name w x w' :
  bind (get_lb_tags elb name) (fun a => ret (true, TagsDict a)) w = (Ret x, w') ->
  exists a, x = (true, TagsDict a) /\ get_lb_tags elb name w = (Ret a, w').
Proof.
  unfold bind. destruct (get_lb_tags elb name w) as [[a|msg|e] w1]; try discriminate.
  unfold ret. intros [= <- <-]. eauto.
Qed.

Lemma fetch_wf elb name s a : fetch elb name s = Some a -> dict_wf a.
Proof.
  unfold fetch. destruct (describe_tags elb [name] s) as [e|r]; [discriminate|].
  destruct (first_tags r); [discriminate|]. intros [= <-]. apply dict_of_pairs_wf.
Qed.

(** A run that ends in [exit_json] had boto3, built its client and fetched
    the tags. *)
Lemma main_Ret_reached b module w x w' :
  main b module w = (Ret x, w') ->
  HAS_BOTO3 b = true
  /\ exists elb,
       client b "elb" (param_region module) (param_aws_access_key module)
              (param_aws_secret_key module) = inr elb
       /\ exists actual, fetch elb (param_name module) (provider w) = Some actual.
Proof.
  intros Hm. destruct (HAS_BOTO3 b) eqn:Hb.
  2:{ unfold main in Hm. rewrite Hb in Hm. discriminate. }
  split; [reflexivity|].
  destruct (client b "elb" (param_region module) (param_aws_access_key module)
              (param_aws_secret_key module)) as [e|elb] eqn:Hc.
  { unfold main in Hm. rewrite Hb, Hc in Hm. destruct e; discriminate. }
  exists elb. split; [reflexivity|].
  destruct (fetch elb (param_name module) (provider w)) as [actual|] eqn:Hf; [eauto|].
  destruct (main_fetch_failed b elb module Hb Hc w Hf) as (r & Hr & Hne).
  rewrite Hr in Hm. injection Hm as -> _. destruct (Hne x). reflexivity.
Qed.

Lemma mutations_app l1 l2 : mutations (l1 ++ l2) = mutations l1 ++ mutations l2.
Proof. apply filter_app. Qed.

Lemma mutations_describe l names : mutations (l ++ [DescribeTags names]) = mutations l.
Proof. rewrite mutations_app. apply app_nil_r. Qed.

End TagRunFacts.

(** ** Fetching again after a mutation *)

Section IdempotenceFacts.
Import Py Ansible Ec2ElbTag TagRun.
Implicit Types (actual a : dict string) (desired : dict pyval).

Lemma overlay_untouched a (l : list tag) k :
  (forall t, t ∈ l -> Key t <> k) -> dict_get (overlay a l) k = dict_get a k.
Proof.
  unfold overlay. revert a. induction l as [|t l IH]; intros a Hl; [reflexivity|].
  simpl. rewrite IH by (intros t' Ht'; apply Hl, list_elem_of_further, Ht').
  rewrite dict_get_set, bool_decide_eq_false_2; [reflexivity|].
  apply Hl, list_elem_of_here.
Qed.

Lemma overlay_touched a (l : list tag) k v :
  (exists t, t ∈ l /\ Key t = k) ->
  (forall t, t ∈ l -> Key t = k -> Value t = v) ->
  dict_get (overlay a l) k = Some v.
Proof.
  revert a. induction l as [|t l IH]; intros a [t0 [Hin Hk]] Hv.
  - inversion Hin.
  - change (overlay a (t :: l)) with (overlay (dict_set a (Key t) (Value t)) l).
    destruct (decide (Exists (fun t' => Key t' = k) l)) as [Hex|Hnex].
    + apply IH.
      * apply Exists_exists in Hex. exact Hex.
      * intros t' Ht'. apply Hv, list_elem_of_further, Ht'.
    + rewrite overlay_untouched.
      * rewrite dict_get_set.
        apply elem_of_cons in Hin as [->|Hin].
        -- rewrite bool_decide_eq_true_2 by assumption.
           f_equal. apply Hv; [apply list_elem_of_here | assumption].
        -- destruct Hnex. apply Exists_exists. eauto.
      * intros t' Ht' Hk'. apply Hnex, Exists_exists. eauto.
Qed.

Lemma second_present a a1 desired :
  (forall k, dict_get a1 k = dict_get (overlay a (tags_to_add a desired)) k) ->
  tags_to_add a1 desired = [].
Proof.
  intros Hlaw. apply elem_of_nil_inv. intros [k v] Hin.
  apply tags_to_add_spec in Hin as (dv & Hdv & -> & Hne).
  apply Hne. rewrite Hlaw.
  destruct (decide (dict_get a k = Some (py_str dv))) as [Heq|Hneq].
  - rewrite overlay_untouched; [exact Heq|].
    intros [k' v'] (dv' & Hdv' & -> & Hne')%tags_to_add_spec Hk. simpl in Hk. subst k'.
    congruence.
  - apply overlay_touched.
    + exists (Tag k (py_str dv)). split; [|reflexivity].
      apply tags_to_add_spec. eauto.
    + intros [k' v'] (dv' & Hdv' & -> & Hne')%tags_to_add_spec Hk. simpl in *. subst k'.
      congruence.
Qed.

Lemma second_absent a a1 desired :
  (forall k, dict_get a1 k
             = if bool_decide (k ∈ keys_to_remove a desired) then None else dict_get a k) ->
  keys_to_remove a1 desired = [].
Proof.
  intros Hlaw. apply elem_of_nil_inv. intros k Hin.
  apply keys_to_remove_spec in Hin as (x & dv & Hx & Hdv & ->).
  rewrite Hlaw in Hx.
  destruct (bool_decide_reflect (k ∈ keys_to_remove a desired)) as [?|Hnin]; [discriminate|].
  apply Hnin, keys_to_remove_spec. eauto.
Qed.
End IdempotenceFacts.

(** ** The provider of [MemElb] overlays and removes *)

Section MemElbFacts.
Import Py Ansible Ec2ElbTag TagRun MemElb.

Lemma as_dict_snoc ts t k :
  dict_get (as_dict (ts ++ [t])) k
  = if bool_decide (Key t = k) then Some (Value t) else dict_get (as_dict ts) k.
Proof.
  unfold as_dict, dict_of_pairs. rewrite map_app, foldl_app. simpl.
  apply dict_get_set.
Qed.

Lemma as_dict_filter (P : string -> Prop) `{forall k, Decision (P k)} ts k :
  dict_get (as_dict (filter (fun t => P (Key t)) ts)) k
  = if bool_decide (P k) then dict_get (as_dict ts) k else None.
Proof.
  induction ts as [|t ts IH] using rev_ind.
  - simpl. destruct (bool_decide (P k)); reflexivity.
  - rewrite filter_app, filter_cons, filter_nil. destruct (decide (P (Key t))) as [HP|HP].
    + rewrite !as_dict_snoc, IH.
      destruct (bool_decide_reflect (Key t = k)) as [<-|?]; [|reflexivity].
      rewrite bool_decide_eq_true_2 by assumption. reflexivity.
    + rewrite app_nil_r, IH, as_dict_snoc.
      destruct (bool_decide_reflect (Key t = k)) as [<-|?]; [|reflexivity].
      rewrite bool_decide_eq_false_2 by assumption. reflexivity.
Qed.

Lemma as_dict_put_tag ts t k :
  dict_get (as_dict (put_tag ts t)) k
  = dict_get (dict_set (as_dict ts) (Key t) (Value t)) k.
Proof.
  unfold put_tag. rewrite as_dict_snoc, dict_get_set.
  destruct (bool_decide_reflect (Key t = k)) as [?|Hne]; [reflexivity|].
  pose proof (as_dict_filter (fun k' => k' <> Key t) ts k) as Hfl.
  cbv beta in Hfl. rewrite Hfl.
  rewrite bool_decide_eq_true_2 by congruence. reflexivity.
Qed.

Lemma overlay_ext (d1 d2 : dict string) (l : list tag) :
  (forall k, dict_get d1 k = dict_get d2 k) ->
  forall k, dict_get (overlay d1 l) k = dict_get (overlay d2 l) k.
Proof.
  revert d1 d2. induction l as [|t l IH]; intros d1 d2 Hd; [exact Hd|].
  apply IH. intros k. rewrite !dict_get_set, Hd. reflexivity.
Qed.

Lemma as_dict_foldl_put_tag ts (l : list tag) k :
  dict_get (as_dict (foldl put_tag ts l)) k = dict_get (overlay (as_dict ts) l) k.
Proof.
  revert ts k. induction l as [|t l IH]; intros ts k; [reflexivity|].
  simpl. rewrite IH. apply overlay_ext. intros k'. apply as_dict_put_tag.
Qed.

Lemma mem_fetch name (s : store) :
  fetch mem_client name s = as_dict <$> dict_get s name.
Proof.
  unfold fetch. simpl. unfold mem_describe_tags, lookup_lb. simpl.
  destruct (dict_get s name); reflexivity.
Qed.

Lemma mem_client_lawful name : lawful mem_client name.
Proof.
  split.
  - intros l s s' a a' Hadd. rewrite !mem_fetch. simpl in Hadd.
    unfold mem_add_tags, lookup_lb in Hadd. simpl in Hadd.
    destruct (dict_get s name) as [old|]; [|discriminate]. simpl in *.
    injection Hadd as <-. rewrite dict_get_set, bool_decide_eq_true_2 by reflexivity.
    simpl. intros [= <-] [= <-] k. apply as_dict_foldl_put_tag.
  - intros ks s s' a a' Hrem. rewrite !mem_fetch. simpl in Hrem.
    unfold mem_remove_tags, lookup_lb in Hrem. simpl in Hrem.
    destruct (dict_get s name) as [old|]; [|discriminate]. simpl in *.
    injection Hrem as <-. rewrite dict_get_set, bool_decide_eq_true_2 by reflexivity.
    simpl. intros [= <-] [= <-] k.
    pose proof (as_dict_filter (fun k' => k' ∉ ks) old k) as Hfl.
    cbv beta in Hfl. rewrite Hfl.
    destruct (bool_decide_reflect (k ∈ ks)) as [Hin|Hnin].
    + rewrite bool_decide_eq_false_2; [reflexivity|]. intros Hn. apply Hn, Hin.
    + rewrite bool_decide_eq_true_2 by assumption. reflexivity.
Qed.
End MemElbFacts.

(** ** The tag module: what a run does *)

Section TagClaims.
Import Py Ansible Ec2ElbTag TagRun.
Context {S : Type}.
Implicit Types (b : boto3 S) (elb : elb_client S) (w : world S api_call).
Implicit Types (actual : dict string) (desired : dict pyval).

(** C6.  In [list] mode, whatever [tags] holds (a dictionary or nothing) and
    whether or not the run is a check, the run issues no mutating call and
    leaves the provider as it was; when the fetch succeeds the run ends in
    [exit_json(changed=False, tags=actual)] with the fetched dictionary, after
    the one [describe_tags] call. *)
Theorem list_mode_reports_and_never_mutates b elb module w :
  HAS_BOTO3 b = true ->
  client b "elb" (param_region module) (param_aws_access_key module)
         (param_aws_secret_key module) = inr elb ->
  param_state module = list_tags ->
  mutations (calls (main b module w).2) = mutations (calls w)
  /\ provider (main b module w).2 = provider w
  /\ forall actual,
       fetch elb (param_name module) (provider w) = Some actual ->
       main b module w
       = (Ret (false, TagsDict actual),
          World (provider w) (calls w ++ [DescribeTags [param_name module]])).
Proof.
  intros Hb Hc Hs.
  destruct (fetch elb (param_name module) (provider w)) as [actual|] eqn:Hf.
  - rewrite (main_list b elb module Hb Hc w actual Hs Hf). cbn [snd calls provider].
    rewrite mutations_describe. split; [reflexivity|]. split; [reflexivity|].
    intros ? [= <-]. reflexivity.
  - destruct (main_fetch_failed b elb module Hb Hc w Hf) as (r & -> & _).
    cbn [snd calls provider]. rewrite mutations_describe.
    split; [reflexivity|]. split; [reflexivity|]. discriminate.
Qed.

(** C7.  In each of the three modes the first call of a run is the
    [describe_tags] fetch; when that fetch fails the run does not reach
    [exit_json], it has issued that one call only and the provider is as it
    was; a [ClientError] of the fetch is reported through [fail_json] with
    the error's message. *)
Theorem fetch_comes_first_and_its_failure_is_fatal b elb module w :
  HAS_BOTO3 b = true ->
  client b "elb" (param_region module) (param_aws_access_key module)
         (param_aws_secret_key module) = inr elb ->
  (exists rest,
      calls (main b module w).2
      = calls w ++ DescribeTags [param_name module] :: rest)
  /\ (fetch elb (param_name module) (provider w) = None ->
      (forall x, (main b module w).1 <> Ret x)
      /\ (main b module w).2
         = World (provider w) (calls w ++ [DescribeTags [param_name module]]))
  /\ (forall msg,
        describe_tags elb [param_name module] (provider w) = inl (ClientError msg) ->
        (main b module w).1 = FailJson msg).
Proof.
  intros Hb Hc. split; [|split].
  - destruct (fetch elb (param_name module) (provider w)) as [actual|] eqn:Hf.
    + destruct (param_state module) eqn:Hs; destruct (param_tags module) as [desired|] eqn:Ht.
      * rewrite (main_present b elb module Hb Hc w actual desired Hs Ht Hf).
        destruct (tags_to_add actual desired) as [|t ts]; [exists []; reflexivity|].
        destruct (check_mode module); [exists []; reflexivity|]. cbv zeta.
        destruct (add_tags elb _ _ _) as [e|s'].
        -- eexists. cbn [snd calls]. rewrite <- app_assoc. reflexivity.
        -- rewrite refetch_world. eexists. cbn [calls]. rewrite <- !app_assoc. reflexivity.
      * rewrite (main_present_omitted b elb module Hb Hc w actual Hs Ht Hf).
        exists []. reflexivity.
      * rewrite (main_absent b elb module Hb Hc w actual desired Hs Ht Hf).
        destruct (keys_to_remove actual desired) as [|k ks]; [exists []; reflexivity|].
        destruct (check_mode module); [exists []; reflexivity|]. cbv zeta.
        destruct (remove_tags elb _ _ _) as [e|s'].
        -- eexists. cbn [snd calls]. rewrite <- app_assoc. reflexivity.
        -- rewrite refetch_world. eexists. cbn [calls]. rewrite <- !app_assoc. reflexivity.
      * rewrite (main_absent_omitted b elb module Hb Hc w actual Hs Ht Hf).
        exists []. reflexivity.
      * rewrite (main_list b elb module Hb Hc w actual Hs Hf). exists []. reflexivity.
      * rewrite (main_list b elb module Hb Hc w actual Hs Hf). exists []. reflexivity.
    + destruct (main_fetch_failed b elb module Hb Hc w Hf) as (r & -> & _).
      exists []. reflexivity.
  - intros Hf. destruct (main_fetch_failed b elb module Hb Hc w Hf) as (r & -> & Hr).
    split; [exact Hr | reflexivity].
  - intros msg Hd.
    assert (fetch elb (param_name module) (provider w) = None) as Hf.
    { unfold fetch. rewrite Hd. reflexivity. }
    unfold main. rewrite Hb, Hc. cbn [negb].
    unfold bind at 1. unfold try_except, lift, ret at 1.
    unfold bind at 1. rewrite get_lb_tags_eq, Hd. reflexivity.
Qed.

(** C2.  In [present] mode the tags to add are the records
    [{'Key': k, 'Value': str(tags[k])}] for exactly the keys [k] of [tags]
    that [actual_tags] lacks or holds with another value than [str(tags[k])].
    A real run hands exactly that list to [add_tags], which is its only
    mutating call; a check run issues none.  When the list is empty the run
    ends in [exit_json(changed=False, tags=actual)] after the fetch alone.
    A value that is not a string goes in as its [str]: the integer [80]
    under a key ["port"] that the load balancer lacks is added as ["80"]. *)
Theorem present_adds_exactly_the_diff b elb module w actual desired :
  HAS_BOTO3 b = true ->
  client b "elb" (param_region module) (param_aws_access_key module)
         (param_aws_secret_key module) = inr elb ->
  param_state module = present ->
  param_tags module = Some desired ->
  fetch elb (param_name module) (provider w) = Some actual ->
  exists to_add : list tag,
    (forall k v,
        Tag k v ∈ to_add <->
        exists dv, dict_get desired k = Some dv /\ v = py_str dv
                   /\ dict_get actual k <> Some (py_str dv))
    /\ mutations (calls (main b module w).2)
       = mutations (calls w)
         ++ (if check_mode module then []
             else match to_add with
                  | [] => []
                  | _ :: _ => [AddTags [param_name module] to_add]
                  end)
    /\ (to_add = [] ->
        main b module w
        = (Ret (false, TagsDict actual),
           World (provider w) (calls w ++ [DescribeTags [param_name module]])))
    /\ (dict_get desired "port" = Some (PyInt 80) ->
        dict_get actual "port" = None ->
        Tag "port" "80" ∈ to_add).
Proof.
  intros Hb Hc Hs Ht Hf. exists (tags_to_add actual desired).
  split; [apply tags_to_add_spec|].
  rewrite (main_present b elb module Hb Hc w actual desired Hs Ht Hf).
  split; [|split].
  - destruct (tags_to_add actual desired) as [|t ts].
    + cbn [snd calls]. rewrite mutations_describe.
      destruct (check_mode module); rewrite app_nil_r; reflexivity.
    + destruct (check_mode module).
      * cbn [snd calls]. rewrite mutations_describe, app_nil_r. reflexivity.
      * cbv zeta. destruct (add_tags elb _ _ _) as [e|s'].
        -- cbn [snd calls]. rewrite mutations_app, mutations_describe. reflexivity.
        -- rewrite refetch_world. cbn [calls].
           rewrite mutations_describe, mutations_app, mutations_describe. reflexivity.
  - intros ->. reflexivity.
  - intros Hd Ha. apply tags_to_add_spec. exists (PyInt 80).
    rewrite Ha. split; [exact Hd|]. split; [reflexivity | discriminate].
Qed.

(** C3.  In [absent] mode the keys to remove are exactly the keys that
    [actual_tags] holds, that [tags] holds too, and whose actual value equals
    [str(tags[k])].  A real run hands exactly that list to [remove_tags],
    which is its only mutating call; a check run issues none.  When no entry
    of [tags] matches an actual value the run ends in
    [exit_json(changed=False, tags=actual)] after the fetch alone.  A key
    that [actual_tags] lacks is never among the keys to remove. *)
Theorem absent_removes_on_key_and_value_match b elb module w actual desired :
  HAS_BOTO3 b = true ->
  client b "elb" (param_region module) (param_aws_access_key module)
         (param_aws_secret_key module) = inr elb ->
  param_state module = absent ->
  param_tags module = Some desired ->
  fetch elb (param_name module) (provider w) = Some actual ->
  exists to_remove : list string,
    (forall k,
        k ∈ to_remove <->
        exists a dv, dict_get actual k = Some a /\ dict_get desired k = Some dv
                     /\ a = py_str dv)
    /\ mutations (calls (main b module w).2)
       = mutations (calls w)
         ++ (if check_mode module then []
             else match to_remove with
                  | [] => []
                  | _ :: _ => [RemoveTags [param_name module] to_remove]
                  end)
    /\ ((forall k dv, dict_get desired k = Some dv ->
                      dict_get actual k <> Some (py_str dv)) ->
        main b module w
        = (Ret (false, TagsDict actual),
           World (provider w) (calls w ++ [DescribeTags [param_name module]])))
    /\ (forall k, dict_get actual k = None -> k ∉ to_remove).
Proof.
  intros Hb Hc Hs Ht Hf. exists (keys_to_remove actual desired).
  split; [apply keys_to_remove_spec|].
  rewrite (main_absent b elb module Hb Hc w actual desired Hs Ht Hf).
  split; [|split].
  - destruct (keys_to_remove actual desired) as [|k ks].
    + cbn [snd calls]. rewrite mutations_describe.
      destruct (check_mode module); rewrite app_nil_r; reflexivity.
    + destruct (check_mode module).
      * cbn [snd calls]. rewrite mutations_describe, app_nil_r. reflexivity.
      * cbv zeta. destruct (remove_tags elb _ _ _) as [e|s'].
        -- cbn [snd calls]. rewrite mutations_app, mutations_describe. reflexivity.
        -- rewrite refetch_world. cbn [calls].
           rewrite mutations_describe, mutations_app, mutations_describe. reflexivity.
  - intros Hdiff.
    destruct (keys_to_remove actual desired) as [|k ks] eqn:Hk; [reflexivity|].
    assert (k ∈ keys_to_remove actual desired) as Hin by (rewrite Hk; apply list_elem_of_here).
    apply keys_to_remove_spec in Hin as (a & dv & Ha & Hdv & ->).
    destruct (Hdiff k dv Hdv Ha).
  - intros k Hnone (a & dv & Ha & _)%keys_to_remove_spec. congruence.
Qed.

(** C9.  The dictionary that [get_lb_tags] builds from the provider's list
    of records holds every key once, whatever the list repeats, and so does
    the value that any run of [main] hands to [exit_json] as [tags], be it a
    dictionary or the list of records of the [absent] check run. *)
Theorem produced_tag_sets_have_unique_keys
    b elb module name w0 d w0' w changed tags w' :
  get_lb_tags elb name w0 = (Ret d, w0') ->
  main b module w = (Ret (changed, tags), w') ->
  dict_wf d /\ NoDup (tags_keys tags).
Proof.
  intros Hg Hm. split; [apply (get_lb_tags_Ret _ _ _ _ _ Hg)|].
  destruct (main_Ret_reached _ _ _ _ _ Hm) as (Hb & elb' & Hc & actual & Hf).
  pose proof (fetch_wf _ _ _ _ Hf) as Hwf.
  destruct (param_state module) eqn:Hs; destruct (param_tags module) as [desired|] eqn:Ht.
  - rewrite (main_present b elb' module Hb Hc w actual desired Hs Ht Hf) in Hm.
    destruct (tags_to_add actual desired) as [|t ts].
    { injection Hm as <- <- <-. exact Hwf. }
    destruct (check_mode module).
    { injection Hm as <- <- <-. apply dict_set_wf, Hwf. }
    cbv zeta in Hm. destruct (add_tags elb' _ _ _) as [e|s']; [discriminate|].
    apply refetch_Ret in Hm as (a & [= _ ->] & Ha).
    apply (get_lb_tags_Ret _ _ _ _ _ Ha).
  - rewrite (main_present_omitted b elb' module Hb Hc w actual Hs Ht Hf) in Hm.
    discriminate.
  - rewrite (main_absent b elb' module Hb Hc w actual desired Hs Ht Hf) in Hm.
    destruct (keys_to_remove actual desired) as [|k ks].
    { injection Hm as <- <- <-. exact Hwf. }
    destruct (check_mode module).
    { injection Hm as <- <- <-. cbn [tags_keys]. rewrite remaining_keys.
      apply NoDup_filter, Hwf. }
    cbv zeta in Hm. destruct (remove_tags elb' _ _ _) as [e|s']; [discriminate|].
    apply refetch_Ret in Hm as (a & [= _ ->] & Ha).
    apply (get_lb_tags_Ret _ _ _ _ _ Ha).
  - rewrite (main_absent_omitted b elb' module Hb Hc w actual Hs Ht Hf) in Hm.
    destruct actual; [|discriminate]. injection Hm as <- <- <-. apply NoDup_nil_2.
  - rewrite (main_list b elb' module Hb Hc w actual Hs Hf) in Hm.
    injection Hm as <- <- <-. exact Hwf.
  - rewrite (main_list b elb' module Hb Hc w actual Hs Hf) in Hm.
    injection Hm as <- <- <-. exact Hwf.
Qed.

(** C10, as the code has it.  With [tags] left out and the fetch done, a
    [present] run ends in the uncaught [TypeError] of [for key in tags]; an
    [absent] run ends in the uncaught [TypeError] of [key in tags] when the
    load balancer has a tag, and in [exit_json(changed=False, tags={})] when
    it has none, the test being made once per actual key.  No mutating call
    is issued either way. *)
Theorem omitted_tags_fail_where_the_diff_reads_them b elb module w actual :
  HAS_BOTO3 b = true ->
  client b "elb" (param_region module) (param_aws_access_key module)
         (param_aws_secret_key module) = inr elb ->
  param_tags module = None ->
  fetch elb (param_name module) (provider w) = Some actual ->
  (param_state module = present ->
   main b module w
   = (Raise (TypeError "'NoneType' object is not iterable"),
      World (provider w) (calls w ++ [DescribeTags [param_name module]])))
  /\ (param_state module = absent -> actual <> [] ->
      main b module w
      = (Raise (TypeError "argument of type 'NoneType' is not iterable"),
         World (provider w) (calls w ++ [DescribeTags [param_name module]])))
  /\ (param_state module = absent -> actual = [] ->
      main b module w
      = (Ret (false, TagsDict []),
         World (provider w) (calls w ++ [DescribeTags [param_name module]]))).
Proof.
  intros Hb Hc Ht Hf. split; [|split].
  - intros Hs. apply (main_present_omitted b elb module Hb Hc w actual Hs Ht Hf).
  - intros Hs Hne.
    rewrite (main_absent_omitted b elb module Hb Hc w actual Hs Ht Hf).
    destruct actual; [congruence | reflexivity].
  - intros Hs ->.
    apply (main_absent_omitted b elb module Hb Hc w [] Hs Ht Hf).
Qed.

(** C5, as the code has it.  Take a real run in [present] or [absent] mode
    with a dictionary of [tags], against a client whose [add_tags] overlays
    and whose [remove_tags] removes, and let it end in [exit_json].  It
    reports [changed=True] exactly when its diff is not empty: in [present]
    mode when some entry of [tags] is missing from the actual tags or held
    with another value, in [absent] mode when some entry of [tags] is held
    with that very value.  The same call made again right after it ends in
    [exit_json(changed=False, ...)] after the fetch alone. *)
Theorem second_real_call_reports_unchanged
    b elb module w desired changed1 tags1 w1 :
  HAS_BOTO3 b = true ->
  client b "elb" (param_region module) (param_aws_access_key module)
         (param_aws_secret_key module) = inr elb ->
  param_state module <> list_tags ->
  param_tags module = Some desired ->
  check_mode module = false ->
  lawful elb (param_name module) ->
  main b module w = (Ret (changed1, tags1), w1) ->
  (exists actual,
      fetch elb (param_name module) (provider w) = Some actual
      /\ (changed1 = true <->
          exists k dv,
            dict_get desired k = Some dv
            /\ match param_state module with
               | absent => dict_get actual k = Some (py_str dv)
               | _ => dict_get actual k <> Some (py_str dv)
               end))
  /\ exists tags2,
      main b module w1
      = (Ret (false, tags2),
         World (provider w1) (calls w1 ++ [DescribeTags [param_name module]])).
Proof.
  intros Hb Hc Hs Ht Hchk [Hadd Hrem] Hm.
  destruct (main_Ret_reached _ _ _ _ _ Hm) as (_ & elb' & Hc' & actual & Hf).
  rewrite Hc in Hc'. injection Hc' as <-.
  destruct (param_state module) eqn:Hst; [| |congruence].
  - (* present *)
    rewrite (main_present b elb module Hb Hc w actual desired Hst Ht Hf), Hchk in Hm.
    destruct (tags_to_add actual desired) as [|t ts] eqn:Hl.
    + injection Hm as <- <- <-. split.
      * exists actual. split; [exact Hf|]. split; [discriminate|].
        intros (k & dv & Hdv & Hne).
        assert (Tag k (py_str dv) ∈ tags_to_add actual desired) as Hin
          by (apply tags_to_add_spec; eauto).
        rewrite Hl in Hin. inversion Hin.
      * exists (TagsDict actual).
        rewrite (main_present b elb module Hb Hc
                   (World (provider w) (calls w ++ [DescribeTags [param_name module]]))
                   actual desired Hst Ht Hf), Hl.
        reflexivity.
    + cbv zeta in Hm.
      destruct (add_tags elb _ _ _) as [e|s'] eqn:Ha; [discriminate|].
      apply refetch_Ret in Hm as (a1 & [= -> ->] & Hg).
      apply get_lb_tags_Ret in Hg as (Hf1 & _ & ->). cbn [provider] in Hf1.
      split.
      * exists actual. split; [exact Hf|]. split; [|reflexivity].
        intros _. destruct t as [k v].
        assert (Tag k v ∈ tags_to_add actual desired) as Hin
          by (rewrite Hl; apply list_elem_of_here).
        apply tags_to_add_spec in Hin as (dv & Hdv & -> & Hne). eauto.
      * exists (TagsDict a1).
        match goal with
        | |- context [main b module ?w1] =>
            rewrite (main_present b elb module Hb Hc w1 a1 desired Hst Ht Hf1)
        end.
        rewrite (second_present actual a1 desired); [reflexivity|].
        rewrite Hl. apply (Hadd _ _ _ _ _ Ha Hf Hf1).
  - (* absent *)
    rewrite (main_absent b elb module Hb Hc w actual desired Hst Ht Hf), Hchk in Hm.
    destruct (keys_to_remove actual desired) as [|k ks] eqn:Hl.
    + injection Hm as <- <- <-. split.
      * exists actual. split; [exact Hf|]. split; [discriminate|].
        intros (k & dv & Hdv & Heq).
        assert (k ∈ keys_to_remove actual desired) as Hin
          by (apply keys_to_remove_spec; eauto).
        rewrite Hl in Hin. inversion Hin.
      * exists (TagsDict actual).
        rewrite (main_absent b elb module Hb Hc
                   (World (provider w) (calls w ++ [DescribeTags [param_name module]]))
                   actual desired Hst Ht Hf), Hl.
        reflexivity.
    + cbv zeta in Hm.
      destruct (remove_tags elb _ _ _) as [e|s'] eqn:Hr; [discriminate|].
      apply refetch_Ret in Hm as (a1 & [= -> ->] & Hg).
      apply get_lb_tags_Ret in Hg as (Hf1 & _ & ->). cbn [provider] in Hf1.
      split.
      * exists actual. split; [exact Hf|]. split; [|reflexivity].
        intros _.
        assert (k ∈ keys_to_remove actual desired) as Hin
          by (rewrite Hl; apply list_elem_of_here).
        apply keys_to_remove_spec in Hin as (a & dv & Hka & Hdv & ->). eauto.
      * exists (TagsDict a1).
        match goal with
        | |- context [main b module ?w1] =>
            rewrite (main_absent b elb module Hb Hc w1 a1 desired Hst Ht Hf1)
        end.
        rewrite (second_absent actual a1 desired); [reflexivity|].
        rewrite Hl. apply (Hrem _ _ _ _ _ Hr Hf Hf1).
Qed.

End TagClaims.

(** A load balancer with two tags. *)
Example list_mode_witness :
  Ansible.calls
    (Ec2ElbTag.main MemElb.mem_boto3 (MemElb.on_my_lb Ec2ElbTag.list_tags None true)
       (MemElb.start [("my-lb", [Ec2ElbTag.Tag "env" "prod"; Ec2ElbTag.Tag "tier" "web"])])).2
  = [Ec2ElbTag.DescribeTags ["my-lb"]]
  /\ Ec2ElbTag.main MemElb.mem_boto3 (MemElb.on_my_lb Ec2ElbTag.list_tags None true)
       (MemElb.start [("my-lb", [Ec2ElbTag.Tag "env" "prod"; Ec2ElbTag.Tag "tier" "web"])])
     = (Ansible.Ret (false, Ec2ElbTag.TagsDict [("env", "prod"); ("tier", "web")]),
        Ansible.World [("my-lb", [Ec2ElbTag.Tag "env" "prod"; Ec2ElbTag.Tag "tier" "web"])]
          [Ec2ElbTag.DescribeTags ["my-lb"]]).
Proof.
  destruct (list_mode_reports_and_never_mutates MemElb.mem_boto3 MemElb.mem_client
              (MemElb.on_my_lb Ec2ElbTag.list_tags None true)
              (MemElb.start [("my-lb", [Ec2ElbTag.Tag "env" "prod"; Ec2ElbTag.Tag "tier" "web"])])
              eq_refl eq_refl eq_refl) as (_ & _ & H).
  split; [reflexivity|]. apply H. reflexivity.
Defined.

(** ** Runs against the provider of [MemElb] *)

Section TagRuns.
Import Py Ansible Ec2ElbTag TagRun MemElb.

(** C1.  A check run of [present] with the one tag [a=b] to add on a load
    balancer without tags hands [{"Key": "Value"}] to [exit_json], where the
    real run hands over [{"a": "b"}]: [actual_tags.update(tags_to_add)] reads
    every record as the pair of its two keys. *)
Theorem check_run_of_present_sets_Key_to_Value :
  (main mem_boto3 (on_my_lb present (Some [("a", PyStr "b")]) true)
        (start [("my-lb", [])])).1
  = Ret (true, TagsDict [("Key", "Value")])
  /\ (main mem_boto3 (on_my_lb present (Some [("a", PyStr "b")]) false)
           (start [("my-lb", [])])).1
     = Ret (true, TagsDict [("a", "b")])
  /\ (main mem_boto3 (on_my_lb present (Some [("a", PyStr "b")]) true)
           (start [("my-lb", [])])).1
     <> (main mem_boto3 (on_my_lb present (Some [("a", PyStr "b")]) false)
              (start [("my-lb", [])])).1.
Proof. split; [reflexivity|]. split; [reflexivity|]. discriminate. Qed.

(** C4.  A check run of [absent] that removes [env=prod] from the tags
    [env=prod], [tier=web] hands the list [[{'Key': 'tier', 'Value': 'web'}]]
    to [exit_json], where the real run hands over the dictionary
    [{"tier": "web"}]. *)
Theorem check_run_of_absent_returns_a_list :
  (main mem_boto3 (on_my_lb absent (Some [("env", PyStr "prod")]) true)
        (start [("my-lb", [Tag "env" "prod"; Tag "tier" "web"])])).1
  = Ret (true, TagsList [Tag "tier" "web"])
  /\ (main mem_boto3 (on_my_lb absent (Some [("env", PyStr "prod")]) false)
           (start [("my-lb", [Tag "env" "prod"; Tag "tier" "web"])])).1
     = Ret (true, TagsDict [("tier", "web")]).
Proof. split; reflexivity. Qed.

Lemma present_port_80_witness :
  exists to_add,
    Tag "port" "80" ∈ to_add
    /\ mutations (calls (main mem_boto3 (on_my_lb present (Some [("port", PyInt 80)]) false)
                           (start [("my-lb", [])])).2)
       = [AddTags ["my-lb"] to_add].
Proof.
  destruct (present_adds_exactly_the_diff mem_boto3 mem_client
              (on_my_lb present (Some [("port", PyInt 80)]) false)
              (start [("my-lb", [])]) [] [("port", PyInt 80)]
              eq_refl eq_refl eq_refl eq_refl eq_refl)
    as (l & _ & Hmut & _ & Hport).
  exists l. pose proof (Hport eq_refl eq_refl) as Hin. split; [exact Hin|].
  rewrite Hmut. destruct l; [inversion Hin | reflexivity].
Defined.

Lemma absent_other_value_witness :
  main mem_boto3 (on_my_lb absent (Some [("env", PyStr "staging")]) false)
       (start [("my-lb", [Tag "env" "prod"; Tag "tier" "web"])])
  = (Ret (false, TagsDict [("env", "prod"); ("tier", "web")]),
     World [("my-lb", [Tag "env" "prod"; Tag "tier" "web"])] [DescribeTags ["my-lb"]]).
Proof.
  destruct (absent_removes_on_key_and_value_match mem_boto3 mem_client
              (on_my_lb absent (Some [("env", PyStr "staging")]) false)
              (start [("my-lb", [Tag "env" "prod"; Tag "tier" "web"])])
              [("env", "prod"); ("tier", "web")] [("env", PyStr "staging")]
              eq_refl eq_refl eq_refl eq_refl eq_refl)
    as (l & _ & _ & Hsame & _).
  apply Hsame. intros k dv. simpl.
  destruct (bool_decide_reflect ("env" = k)) as [<-|Hne].
  - intros [= <-]. discriminate.
  - discriminate.
Defined.

Lemma fetch_failure_witness :
  main mem_boto3 (on_my_lb present (Some [("env", PyStr "prod")]) false) (start [])
  = (FailJson "There is no ACTIVE Load Balancer named 'my-lb'",
     World [] [DescribeTags ["my-lb"]]).
Proof.
  destruct (fetch_comes_first_and_its_failure_is_fatal mem_boto3 mem_client
              (on_my_lb present (Some [("env", PyStr "prod")]) false) (start [])
              eq_refl eq_refl)
    as (_ & Hfail & Hmsg).
  destruct (Hfail eq_refl) as [_ Hw].
  pose proof (Hmsg _ eq_refl) as Hr.
  destruct (main mem_boto3 _ _) as [r w']. simpl in *. subst. reflexivity.
Defined.

(** The provider lists [env] twice; the later record wins. *)
Lemma unique_keys_witness :
  dict_wf [("env", "x"); ("tier", "web")]
  /\ NoDup (tags_keys (TagsList [Tag "env" "x"])).
Proof.
  apply (produced_tag_sets_have_unique_keys mem_boto3 mem_client
           (on_my_lb absent (Some [("tier", PyStr "web")]) true) "my-lb"
           (start [("my-lb", [Tag "env" "prod"; Tag "tier" "web"; Tag "env" "x"])])
           [("env", "x"); ("tier", "web")]
           (World [("my-lb", [Tag "env" "prod"; Tag "tier" "web"; Tag "env" "x"])]
                  [DescribeTags ["my-lb"]])
           (start [("my-lb", [Tag "env" "prod"; Tag "tier" "web"; Tag "env" "x"])])
           true (TagsList [Tag "env" "x"])
           (World [("my-lb", [Tag "env" "prod"; Tag "tier" "web"; Tag "env" "x"])]
                  [DescribeTags ["my-lb"]])).
  - reflexivity.
  - reflexivity.
Defined.

(** C5 as stated fails: with nothing to add, and with nothing to remove, the
    first real call already reports [changed=False]. *)
Lemma first_call_without_a_diff_reports_unchanged :
  (main mem_boto3 (on_my_lb present (Some []) false)
        (start [("my-lb", [Tag "env" "prod"])])).1
  = Ret (false, TagsDict [("env", "prod")])
  /\ (main mem_boto3 (on_my_lb absent (Some [("env", PyStr "staging")]) false)
           (start [("my-lb", [Tag "env" "prod"])])).1
     = Ret (false, TagsDict [("env", "prod")])
  /\ ~ (forall desired : dict pyval,
          exists tags,
            (main mem_boto3 (on_my_lb present (Some desired) false)
                  (start [("my-lb", [Tag "env" "prod"])])).1
            = Ret (true, tags)).
Proof.
  split; [reflexivity|]. split; [reflexivity|].
  intros H. destruct (H []) as [tags Ht]. discriminate.
Defined.

Lemma second_call_witness :
  (exists actual,
      fetch mem_client "my-lb" [("my-lb", [Tag "tier" "web"])] = Some actual
      /\ (true = true <->
          exists k dv,
            dict_get [("env", PyStr "prod")] k = Some dv
            /\ dict_get actual k <> Some (py_str dv)))
  /\ exists tags2,
      main mem_boto3 (on_my_lb present (Some [("env", PyStr "prod")]) false)
           (World [("my-lb", [Tag "tier" "web"; Tag "env" "prod"])]
                  [DescribeTags ["my-lb"];
                   AddTags ["my-lb"] [Tag "env" "prod"];
                   DescribeTags ["my-lb"]])
      = (Ret (false, tags2),
         World [("my-lb", [Tag "tier" "web"; Tag "env" "prod"])]
               [DescribeTags ["my-lb"];
                AddTags ["my-lb"] [Tag "env" "prod"];
                DescribeTags ["my-lb"];
                DescribeTags ["my-lb"]]).
Proof.
  apply (second_real_call_reports_unchanged mem_boto3 mem_client
           (on_my_lb present (Some [("env", PyStr "prod")]) false)
           (start [("my-lb", [Tag "tier" "web"])])
           [("env", PyStr "prod")] true
           (TagsDict [("tier", "web"); ("env", "prod")])
           (World [("my-lb", [Tag "tier" "web"; Tag "env" "prod"])]
                  [DescribeTags ["my-lb"];
                   AddTags ["my-lb"] [Tag "env" "prod"];
                   DescribeTags ["my-lb"]])).
  - reflexivity.
  - reflexivity.
  - discriminate.
  - reflexivity.
  - reflexivity.
  - apply mem_client_lawful.
  - reflexivity.
Defined.

(** C10 as stated fails: with [tags] left out, an [absent] run on a load
    balancer without tags raises nothing and reports [changed=False]. *)
Lemma omitted_tags_absent_without_actual_tags_is_a_noop :
  param_tags (on_my_lb absent None false) = None
  /\ main mem_boto3 (on_my_lb absent None false) (start [("my-lb", [])])
     = (Ret (false, TagsDict []), World [("my-lb", [])] [DescribeTags ["my-lb"]])
  /\ ~ exists msg,
         (main mem_boto3 (on_my_lb absent None false) (start [("my-lb", [])])).1
         = Raise (TypeError msg).
Proof.
  split; [reflexivity|]. split; [reflexivity|].
  intros [msg H]. discriminate.
Defined.

Lemma omitted_tags_witness :
  main mem_boto3 (on_my_lb present None false) (start [("my-lb", [Tag "env" "prod"])])
  = (Raise (TypeError "'NoneType' object is not iterable"),
     World [("my-lb", [Tag "env" "prod"])] [DescribeTags ["my-lb"]]).
Proof.
  destruct (omitted_tags_fail_where_the_diff_reads_them mem_boto3 mem_client
              (on_my_lb present None false) (start [("my-lb", [Tag "env" "prod"])])
              [("env", "prod")] eq_refl eq_refl eq_refl eq_refl)
    as (Hp & _ & _).
  apply Hp. reflexivity.
Defined.

End TagRuns.

(** ** The wait module *)

Section WaitClaims.
Import Py Ansible Boto3Wait.
Context {S : Type}.

(** C8.  When [until] is not among [client.waiter_names], the run ends in
    [fail_json] with the message that names the waiter and the service, and
    the world is as it was before the run: no condition check and no pause
    has taken place. *)
Theorem unknown_waiter_fails_before_any_check
    (b : boto3 S) (c : service_client S) (module : ansible_module)
    (w : world S event) :
  HAS_BOTO3 b = true ->
  client b (param_service module) (param_region module)
         (param_aws_access_key module) (param_aws_secret_key module) = inr c ->
  param_until module ∉ waiter_names c ->
  main b module w
  = (FailJson (unknown_waiter_msg (param_until module) (param_service module)), w)
  /\ filter (fun e => is_check e) (calls (main b module w).2)
     = filter (fun e => is_check e) (calls w).
Proof.
  intros Hb Hc Hu.
  assert (main b module w
          = (FailJson (unknown_waiter_msg (param_until module) (param_service module)), w))
    as Hmain.
  { unfold main. rewrite Hb. cbn [negb].
    unfold bind at 1. unfold try_except. unfold bind at 1. rewrite Hc. cbn [lift ret].
    rewrite (bool_decide_eq_false_2 (param_until module ∈ waiter_names c)) by exact Hu.
    cbn [negb].
    unfold bind at 1. reflexivity. }
  rewrite Hmain. split; reflexivity.
Qed.

End WaitClaims.

Section WaitRuns.
Import Py Ansible Boto3Wait MemWait.

Lemma bogus_waiter_witness :
  main mem_boto3 (call "bogus" None None) (World 2 [])
  = (FailJson (unknown_waiter_msg "bogus" "emr"), World 2 []).
Proof.
  apply (unknown_waiter_fails_before_any_check mem_boto3 emr_client
           (call "bogus" None None) (World 2 []) eq_refl eq_refl).
  refine (bool_decide_unpack _ _). vm_compute. exact I.
Defined.

(** The condition holds at the third of five checks. *)
Example third_check_succeeds :
  main mem_boto3 (call "cluster_running" (Some 1%Z) (Some 5%Z)) (World 2 [])
  = (Ret false,
     World 0 [ConditionCheck "cluster_running" [("ClusterId", PyStr "j-XXXXXXXXXXXXXXX")];
              Sleep 1;
              ConditionCheck "cluster_running" [("ClusterId", PyStr "j-XXXXXXXXXXXXXXX")];
              Sleep 1;
              ConditionCheck "cluster_running" [("ClusterId", PyStr "j-XXXXXXXXXXXXXXX")]]).
Proof. reflexivity. Qed.

(** The condition does not hold within three checks. *)
Example three_checks_time_out :
  (main mem_boto3 (call "cluster_running" (Some 1%Z) (Some 3%Z)) (World 7 [])).1
  = FailJson "Max attempts exceeded"
  /\ length (filter (fun e => is_check e)
               (calls (main mem_boto3 (call "cluster_running" (Some 1%Z) (Some 3%Z))
                         (World 7 [])).2)) = 3.
Proof. split; reflexivity. Qed.

End WaitRuns.

(** ** More on the runs of the tag module *)

Section TagRunMore.
Import Py Ansible Ec2ElbTag TagRun.
Context {S : Type}.
Implicit Types (b : boto3 S) (elb : elb_client S) (w : world S api_call).
Implicit Types (actual : dict string) (desired : dict pyval).

Lemma main_no_boto3 b module w :
  HAS_BOTO3 b = false ->
  main b module w = (FailJson "boto3 is required for this module", w).
Proof. intros Hb. unfold main. rewrite Hb. reflexivity. Qed.

Lemma main_no_client b module w e :
  HAS_BOTO3 b = true ->
  client b "elb" (param_region module) (param_aws_access_key module)
         (param_aws_secret_key module) = inl e ->
  main b module w
  = (match e with NoRegionError => FailJson region_msg | _ => Raise e end, w).
Proof. intros Hb Hc. unfold main. rewrite Hb, Hc. destruct e; reflexivity. Qed.

Lemma issued_app w s (l : list api_call) : issued w (World s (calls w ++ l)) = l.
Proof. unfold issued. cbn [calls]. apply drop_app_length. Qed.

Lemma issued_same w : issued w w = [].
Proof. unfold issued. apply drop_all. Qed.

(** The cases of a run, each with the equation that describes it. *)
Ltac main_cases b module w :=
  destruct (HAS_BOTO3 b) eqn:Hb;
  [ destruct (client b "elb" (param_region module) (param_aws_access_key module)
                (param_aws_secret_key module)) as [e|elb] eqn:Hc;
    [ rewrite (main_no_client b module w e Hb Hc)
    | destruct (fetch elb (param_name module) (provider w)) as [actual|] eqn:Hf;
      [ destruct (param_state module) eqn:Hs;
        destruct (param_tags module) as [desired|] eqn:Ht;
        [ rewrite (main_present b elb module Hb Hc w actual desired Hs Ht Hf)
        | rewrite (main_present_omitted b elb module Hb Hc w actual Hs Ht Hf)
        | rewrite (main_absent b elb module Hb Hc w actual desired Hs Ht Hf)
        | rewrite (main_absent_omitted b elb module Hb Hc w actual Hs Ht Hf)
        | rewrite (main_list b elb module Hb Hc w actual Hs Hf)
        | rewrite (main_list b elb module Hb Hc w actual Hs Hf) ]
      | destruct (main_fetch_failed b elb module Hb Hc w Hf) as (r & -> & Hne) ] ]
  | rewrite (main_no_boto3 b module w Hb) ].

(** X1.  A check run changes nothing: whatever the mode, the tags and the
    client, the provider is left as it was, no mutating call is issued, and
    the run issues one call (the fetch) at most. *)
Theorem check_mode_never_mutates b module w :
  check_mode module = true ->
  provider (main b module w).2 = provider w
  /\ mutations (calls (main b module w).2) = mutations (calls w)
  /\ length (issued w (main b module w).2) <= 1.
Proof.
  intros Hchk. main_cases b module w; rewrite ?Hchk.
  all: try match goal with
         | |- context [match ?l with [] => _ | _ :: _ => _ end] => destruct l
         end.
  all: cbn [snd provider calls];
       rewrite ?issued_same, ?issued_app, ?mutations_describe;
       cbn [length]; auto with lia.
Qed.

(** X2.  What a run adds to the log: three calls at most, one mutating
    call at most, every call for the named load balancer alone; [add_tags] is
    called in [present] mode only and [remove_tags] in [absent] mode only,
    and neither is ever called with an empty list. *)
Theorem run_issues_at_most_one_mutation b module w :
  calls (main b module w).2 = calls w ++ issued w (main b module w).2
  /\ length (issued w (main b module w).2) <= 3
  /\ length (mutations (issued w (main b module w).2)) <= 1
  /\ forall c,
       c ∈ issued w (main b module w).2 ->
       targets c = [param_name module]
       /\ match c with
          | DescribeTags _ => True
          | AddTags _ l => param_state module = present /\ l <> []
          | RemoveTags _ ks => param_state module = absent /\ ks <> []
          end.
Proof.
  main_cases b module w.
  all: try match goal with
         | |- context [match ?l with [] => _ | _ :: _ => _ end] => destruct l
         end.
  all: try match goal with
         | |- context [if ?c then _ else _] => destruct c
         end.
  all: cbv zeta.
  all: try match goal with
         | |- context [match ?r with inl _ => _ | inr _ => _ end] => destruct r
         end.
  all: rewrite ?refetch_world; cbn [snd provider calls]; rewrite <- ?app_assoc;
       rewrite ?issued_same, ?issued_app, ?app_nil_r; cbn [app].
  all: split; [reflexivity|]; split; [cbn [length]; lia|];
       split; [compute; lia|].
  all: intros c Hc'; repeat (apply elem_of_cons in Hc' as [->|Hc']);
       try (inversion Hc'; fail); cbn [targets]; auto.
Qed.

(** X3.  Before the fetch.  Without boto3 the run ends in [fail_json]; when
    [boto3.client] raises [NoRegionError] the run ends in [fail_json] with
    the message about the region; any other exception of [boto3.client] is
    not caught.  In each case the world is as it was: no call was issued. *)
Theorem failures_before_the_fetch_issue_no_call b module w :
  (HAS_BOTO3 b = false ->
   main b module w = (FailJson "boto3 is required for this module", w))
  /\ (HAS_BOTO3 b = true ->
      client b "elb" (param_region module) (param_aws_access_key module)
             (param_aws_secret_key module) = inl NoRegionError ->
      main b module w = (FailJson region_msg, w))
  /\ (forall e,
        HAS_BOTO3 b = true ->
        client b "elb" (param_region module) (param_aws_access_key module)
               (param_aws_secret_key module) = inl e ->
        e <> NoRegionError ->
        main b module w = (Raise e, w)).
Proof.
  split; [apply main_no_boto3|]. split.
  - intros Hb Hc. apply (main_no_client b module w _ Hb Hc).
  - intros e Hb Hc He. rewrite (main_no_client b module w _ Hb Hc).
    destruct e; congruence.
Qed.

(** X4.  Only a [ClientError] of the fetch is reported through [fail_json].
    Any other exception of [describe_tags] is not caught, and an answer
    without a tag description ends the run in the uncaught [IndexError] of
    [response['TagDescriptions'][0]]; the fetch is the only call issued. *)
Theorem other_fetch_failures_are_not_caught b elb module w :
  HAS_BOTO3 b = true ->
  client b "elb" (param_region module) (param_aws_access_key module)
         (param_aws_secret_key module) = inr elb ->
  (forall e,
      describe_tags elb [param_name module] (provider w) = inl e ->
      (forall msg, e <> ClientError msg) ->
      main b module w
      = (Raise e, World (provider w) (calls w ++ [DescribeTags [param_name module]])))
  /\ (describe_tags elb [param_name module] (provider w) = inr (Response []) ->
      main b module w
      = (Raise (IndexError "list index out of range"),
         World (provider w) (calls w ++ [DescribeTags [param_name module]]))).
Proof.
  intros Hb Hc. split.
  - intros e Hd He. unfold main. rewrite Hb, Hc. cbn [negb].
    unfold bind at 1. unfold try_except, lift, ret at 1.
    unfold bind at 1. rewrite get_lb_tags_eq, Hd.
    destruct e; try reflexivity. destruct (He msg). reflexivity.
  - intros Hd. unfold main. rewrite Hb, Hc. cbn [negb].
    unfold bind at 1. unfold try_except, lift, ret at 1.
    unfold bind at 1. rewrite get_lb_tags_eq, Hd. reflexivity.
Qed.

(** X5.  An empty dictionary of [tags] changes nothing: in [present] and in
    [absent] mode, check run or not, the run ends in
    [exit_json(changed=False, tags=actual)] after the fetch alone. *)
Theorem empty_tags_change_nothing b elb module w actual :
  HAS_BOTO3 b = true ->
  client b "elb" (param_region module) (param_aws_access_key module)
         (param_aws_secret_key module) = inr elb ->
  param_tags module = Some [] ->
  fetch elb (param_name module) (provider w) = Some actual ->
  main b module w
  = (Ret (false, TagsDict actual),
     World (provider w) (calls w ++ [DescribeTags [param_name module]])).
Proof.
  intros Hb Hc Ht Hf. destruct (param_state module) eqn:Hs.
  - rewrite (main_present b elb module Hb Hc w actual [] Hs Ht Hf). reflexivity.
  - rewrite (main_absent b elb module Hb Hc w actual [] Hs Ht Hf).
    assert (keys_to_remove actual [] = []) as ->; [|reflexivity].
    apply elem_of_nil_inv. intros k (a & dv & _ & Hdv & _)%keys_to_remove_spec.
    discriminate.
  - apply (main_list b elb module Hb Hc w actual Hs Hf).
Qed.

(** X6.  A check run with a dictionary of [tags] raises nothing of its own:
    once the fetch has succeeded it ends in [exit_json], having issued the
    fetch alone. *)
Theorem check_run_reaches_exit_json b elb module w actual desired :
  HAS_BOTO3 b = true ->
  client b "elb" (param_region module) (param_aws_access_key module)
         (param_aws_secret_key module) = inr elb ->
  param_tags module = Some desired ->
  check_mode module = true ->
  fetch elb (param_name module) (provider w) = Some actual ->
  exists changed tags,
    main b module w
    = (Ret (changed, tags),
       World (provider w) (calls w ++ [DescribeTags [param_name module]])).
Proof.
  intros Hb Hc Ht Hchk Hf. destruct (param_state module) eqn:Hs.
  - rewrite (main_present b elb module Hb Hc w actual desired Hs Ht Hf), Hchk.
    destruct (tags_to_add actual desired); eauto.
  - rewrite (main_absent b elb module Hb Hc w actual desired Hs Ht Hf), Hchk.
    destruct (keys_to_remove actual desired); eauto.
  - rewrite (main_list b elb module Hb Hc w actual Hs Hf). eauto.
Qed.

(** X7.  The check run foretells [changed]: when the real run of a call
    ends in [exit_json(changed=c, ...)], the check run of the same call from
    the same state ends in [exit_json(changed=c, ...)] too. *)
Theorem check_run_predicts_changed
    b name state region access_key secret_key tags w c t w1 :
  main b (AnsibleModule name state region access_key secret_key tags false) w
  = (Ret (c, t), w1) ->
  exists t',
    main b (AnsibleModule name state region access_key secret_key tags true) w
    = (Ret (c, t'), World (provider w) (calls w ++ [DescribeTags [name]])).
Proof.
  intros Hm.
  destruct (main_Ret_reached _ _ _ _ _ Hm) as (Hb & elb & Hc & actual & Hf).
  cbn [param_region param_aws_access_key param_aws_secret_key param_name] in Hc, Hf.
  set (real := AnsibleModule name state region access_key secret_key tags false) in *.
  set (chk := AnsibleModule name state region access_key secret_key tags true).
  destruct state eqn:Hs; destruct tags as [desired|] eqn:Ht.
  - rewrite (main_present b elb real Hb Hc w actual desired eq_refl eq_refl Hf) in Hm.
    rewrite (main_present b elb chk Hb Hc w actual desired eq_refl eq_refl Hf).
    cbn [check_mode real chk] in *.
    destruct (tags_to_add actual desired) as [|x l].
    + injection Hm as <- _ _. eauto.
    + cbv zeta in Hm. destruct (add_tags elb _ _ _); [discriminate|].
      apply refetch_Ret in Hm as (a & [= <- _] & _). eauto.
  - rewrite (main_present_omitted b elb real Hb Hc w actual eq_refl eq_refl Hf) in Hm.
    discriminate.
  - rewrite (main_absent b elb real Hb Hc w actual desired eq_refl eq_refl Hf) in Hm.
    rewrite (main_absent b elb chk Hb Hc w actual desired eq_refl eq_refl Hf).
    cbn [check_mode real chk] in *.
    destruct (keys_to_remove actual desired) as [|x l].
    + injection Hm as <- _ _. eauto.
    + cbv zeta in Hm. destruct (remove_tags elb _ _ _); [discriminate|].
      apply refetch_Ret in Hm as (a & [= <- _] & _). eauto.
  - rewrite (main_absent_omitted b elb real Hb Hc w actual eq_refl eq_refl Hf) in Hm.
    rewrite (main_absent_omitted b elb chk Hb Hc w actual eq_refl eq_refl Hf).
    destruct actual; [|discriminate]. injection Hm as <- _ _. eauto.
  - rewrite (main_list b elb real Hb Hc w actual eq_refl Hf) in Hm.
    rewrite (main_list b elb chk Hb Hc w actual eq_refl Hf).
    injection Hm as <- _ _. eauto.
  - rewrite (main_list b elb real Hb Hc w actual eq_refl Hf) in Hm.
    rewrite (main_list b elb chk Hb Hc w actual eq_refl Hf).
    injection Hm as <- _ _. eauto.
Qed.

End TagRunMore.

(** ** The dictionary of a list of records *)

Section AsDictFacts.
Import Py Ansible Ec2ElbTag TagRun.

Lemma dict_set_fresh {V} (d : dict V) k v :
  k ∉ keys d -> dict_set d k v = d ++ [(k, v)].
Proof.
  unfold keys. induction d as [|[k0 v0] d IH]; intros Hk; [reflexivity|].
  rewrite fmap_cons in Hk. cbn [fst] in Hk. apply not_elem_of_cons in Hk as [Hne Hk].
  cbn [dict_set]. rewrite bool_decide_eq_false_2 by congruence.
  rewrite IH by exact Hk. reflexivity.
Qed.

Lemma foldl_dict_set_distinct {V} (l acc : dict V) :
  NoDup (keys (acc ++ l)) ->
  foldl (fun d p => dict_set d p.1 p.2) acc l = acc ++ l.
Proof.
  revert acc. induction l as [|[k v] l IH]; intros acc Hnd.
  - rewrite app_nil_r. reflexivity.
  - cbn [foldl fst snd]. rewrite dict_set_fresh.
    + rewrite IH; rewrite <- app_assoc; [reflexivity | exact Hnd].
    + unfold keys in *. rewrite fmap_app in Hnd. apply NoDup_app in Hnd as (_ & Hd & _).
      intros Hin. apply (Hd k Hin). rewrite fmap_cons. apply list_elem_of_here.
Qed.

Lemma dict_of_pairs_distinct {V} (l : dict V) : dict_wf l -> dict_of_pairs l = l.
Proof. intros Hwf. apply (foldl_dict_set_distinct l []). exact Hwf. Qed.

Lemma as_dict_distinct (ts : list tag) :
  NoDup (map Key ts) -> as_dict ts = map (fun t => (Key t, Value t)) ts.
Proof.
  intros Hnd. unfold as_dict. apply dict_of_pairs_distinct.
  unfold dict_wf, keys. rewrite <- list_fmap_compose. exact Hnd.
Qed.

Lemma as_dict_last_wins (ts : list tag) k v :
  dict_get (as_dict ts) k = Some v <->
  exists l1 l2, ts = l1 ++ Tag k v :: l2 /\ forall t, t ∈ l2 -> Key t <> k.
Proof.
  induction ts as [|t ts IH] using rev_ind.
  - split; [discriminate|]. intros (l1 & l2 & Heq & _). destruct l1; discriminate.
  - rewrite as_dict_snoc. destruct (bool_decide_reflect (Key t = k)) as [Hk|Hk].
    + split.
      * intros [= <-]. exists ts, []. destruct t as [k' v']. simpl in Hk. subst k'.
        split; [reflexivity|]. intros t Ht. inversion Ht.
      * intros (l1 & l2 & Heq & Hl2).
        destruct l2 as [|t2 l2 _] using rev_ind.
        -- apply app_inj_tail in Heq as [_ ->]. reflexivity.
        -- rewrite app_comm_cons, app_assoc in Heq.
           apply app_inj_tail in Heq as [_ ->].
           destruct (Hl2 t2); [apply elem_of_app; right; apply list_elem_of_here | exact Hk].
    + rewrite IH. split.
      * intros (l1 & l2 & -> & Hl2). exists l1, (l2 ++ [t]).
        split; [rewrite <- app_assoc; reflexivity|].
        intros t' [Ht'|Ht']%elem_of_app; [auto|].
        apply list_elem_of_singleton in Ht'. subst t'. exact Hk.
      * intros (l1 & l2 & Heq & Hl2).
        destruct l2 as [|t2 l2 _] using rev_ind.
        -- apply app_inj_tail in Heq as [_ ->]. destruct Hk. reflexivity.
        -- rewrite app_comm_cons, app_assoc in Heq.
           apply app_inj_tail in Heq as [-> ->]. exists l1, l2.
           split; [reflexivity|]. intros t' Ht'. apply Hl2, elem_of_app. auto.
Qed.

Lemma dict_get_item {V} (d : dict V) k v :
  dict_wf d -> (k, v) ∈ d -> dict_get d k = Some v.
Proof.
  unfold dict_wf, keys. induction d as [|[k0 v0] d IH]; intros Hwf Hin; [inversion Hin|].
  rewrite fmap_cons in Hwf. apply NoDup_cons in Hwf as [Hk0 Hwf].
  cbn [dict_get]. apply elem_of_cons in Hin as [[= -> ->]|Hin].
  - rewrite bool_decide_eq_true_2; reflexivity.
  - rewrite bool_decide_eq_false_2; [apply IH; assumption|].
    intros ->. apply Hk0. apply (list_elem_of_fmap_2 fst) in Hin. exact Hin.
Qed.

Lemma dict_get_filter_keys {V} (P : string -> Prop) `{forall k, Decision (P k)}
    (d : list (string * V)) k :
  dict_get (filter (fun p => P p.1) d) k
  = if bool_decide (P k) then dict_get d k else None.
Proof.
  induction d as [|[k0 v0] d IH].
  - destruct (bool_decide (P k)); reflexivity.
  - rewrite filter_cons. cbn [fst]. destruct (decide (P k0)) as [HP|HP]; cbn [dict_get].
    + destruct (bool_decide_reflect (k0 = k)) as [<-|?]; [|exact IH].
      rewrite bool_decide_eq_true_2 by exact HP. reflexivity.
    + rewrite IH. destruct (bool_decide_reflect (k0 = k)) as [<-|?]; [|reflexivity].
      rewrite bool_decide_eq_false_2 by exact HP. reflexivity.
Qed.

Lemma remaining_items (a : list (string * string)) (removed : list string) :
  dict_wf a ->
  remaining a removed
  = map (fun p => Tag p.1 p.2) (filter (fun p => p.1 ∉ removed) a).
Proof.
  intros Hwf. unfold remaining, keys.
  assert (forall l : list (string * string),
            (forall p, p ∈ l -> dict_get a p.1 = Some p.2) ->
            omap (fun k => Tag k <$> dict_get a k) (filter (fun k => k ∉ removed) l.*1)
            = map (fun p => Tag p.1 p.2) (filter (fun p => p.1 ∉ removed) l)) as Hgo.
  { induction l as [|p l IH]; intros Hl; [reflexivity|].
    rewrite fmap_cons, !filter_cons.
    destruct (decide (p.1 ∉ removed)).
    - cbn [omap list_omap map]. rewrite (Hl p) by apply list_elem_of_here.
      cbn [fmap option_fmap option_map]. f_equal.
      apply IH. intros q Hq. apply Hl, list_elem_of_further, Hq.
    - apply IH. intros q Hq. apply Hl, list_elem_of_further, Hq. }
  apply Hgo. intros [k v] Hin. apply dict_get_item; assumption.
Qed.

Lemma as_dict_remaining (a : list (string * string)) (removed : list string) k :
  dict_wf a ->
  dict_get (as_dict (remaining a removed)) k
  = if bool_decide (k ∈ removed) then None else dict_get a k.
Proof.
  intros Hwf. rewrite remaining_items by exact Hwf.
  rewrite as_dict_distinct.
  - rewrite map_map. cbn [Key Value].
    rewrite (map_ext _ id) by (intros [? ?]; reflexivity). rewrite map_id.
    pose proof (dict_get_filter_keys (fun k' => k' ∉ removed) a k) as Hfl.
    cbv beta in Hfl. rewrite Hfl.
    destruct (bool_decide_reflect (k ∈ removed)) as [Hin|Hnin].
    + rewrite bool_decide_eq_false_2; [reflexivity|]. intros Hn. apply Hn, Hin.
    + rewrite bool_decide_eq_true_2 by exact Hnin. reflexivity.
  - rewrite map_map. cbn [Key].
    change (NoDup (keys (filter (fun p : string * string => p.1 ∉ removed) a))).
    unfold keys. apply (NoDup_fmap_2_strong fst).
    + intros [k1 v1] [k2 v2] [_ H1]%list_elem_of_filter [_ H2]%list_elem_of_filter Hk.
      cbn [fst] in Hk. subst k2. f_equal.
      apply (dict_get_item _ _ _ Hwf) in H1, H2. congruence.
    + apply NoDup_filter. apply (NoDup_fmap_1 fst). exact Hwf.
Qed.

Lemma overlay_to_add_lookup (a : dict string) (desired : dict pyval) k :
  dict_get (overlay a (tags_to_add a desired)) k
  = match dict_get desired k with
    | Some dv => Some (py_str dv)
    | None => dict_get a k
    end.
Proof.
  destruct (dict_get desired k) as [dv|] eqn:Hdv.
  - destruct (decide (dict_get a k = Some (py_str dv))) as [Heq|Hneq].
    + rewrite overlay_untouched; [exact Heq|].
      intros [k' v'] (dv' & Hdv' & -> & Hne')%tags_to_add_spec Hk.
      cbn [Key] in Hk. subst k'. congruence.
    + apply overlay_touched.
      * exists (Tag k (py_str dv)). split; [|reflexivity].
        apply tags_to_add_spec. eauto.
      * intros [k' v'] (dv' & Hdv' & -> & Hne')%tags_to_add_spec Hk.
        cbn [Key Value] in *. subst k'. congruence.
  - apply overlay_untouched.
    intros [k' v'] (dv' & Hdv' & -> & Hne')%tags_to_add_spec Hk.
    cbn [Key] in Hk. subst k'. congruence.
Qed.

Lemma keys_to_remove_decide (a : dict string) (desired : dict pyval) k :
  bool_decide (k ∈ keys_to_remove a desired)
  = match dict_get desired k with
    | Some dv => bool_decide (dict_get a k = Some (py_str dv))
    | None => false
    end.
Proof.
  destruct (dict_get desired k) as [dv|] eqn:Hdv.
  - destruct (bool_decide_reflect (dict_get a k = Some (py_str dv))) as [Heq|Hne].
    + apply bool_decide_eq_true_2, keys_to_remove_spec. eauto.
    + apply bool_decide_eq_false_2.
      intros (x & dv' & Hx & Hdv' & ->)%keys_to_remove_spec. congruence.
  - apply bool_decide_eq_false_2.
    intros (x & dv' & Hx & Hdv' & ->)%keys_to_remove_spec. congruence.
Qed.

End AsDictFacts.

(** ** What the runs of the tag module leave and return *)

Section TagResults.
Import Py Ansible Ec2ElbTag TagRun.
Context {S : Type}.
Implicit Types (b : boto3 S) (elb : elb_client S) (w : world S api_call).
Implicit Types (actual : dict string) (desired : dict pyval).


(** X9.  What a real [present] run returns.  Against a client whose
    [add_tags] overlays, a real run that ends in [exit_json] returns a
    dictionary that holds [str(tags[k])] for every key [k] of [tags] and,
    for every other key, what the load balancer held before. *)
Theorem real_present_run_returns_the_overlay
    b elb module w actual desired changed tags w1 :
  HAS_BOTO3 b = true ->
  client b "elb" (param_region module) (param_aws_access_key module)
         (param_aws_secret_key module) = inr elb ->
  param_state module = present ->
  param_tags module = Some desired ->
  check_mode module = false ->
  lawful elb (param_name module) ->
  fetch elb (param_name module) (provider w) = Some actual ->
  main b module w = (Ret (changed, tags), w1) ->
  exists result,
    tags = TagsDict result
    /\ forall k,
         dict_get result k
         = match dict_get desired k with
           | Some dv => Some (py_str dv)
           | None => dict_get actual k
           end.
Proof.
  intros Hb Hc Hs Ht Hchk [Hadd _] Hf Hm.
  rewrite (main_present b elb module Hb Hc w actual desired Hs Ht Hf), Hchk in Hm.
  destruct (tags_to_add actual desired) as [|t l] eqn:Hl.
  - injection Hm as <- <- <-. exists actual. split; [reflexivity|].
    intros k. rewrite <- overlay_to_add_lookup, Hl. reflexivity.
  - cbv zeta in Hm.
    destruct (add_tags elb _ _ _) as [e|s'] eqn:Ha; [discriminate|].
    apply refetch_Ret in Hm as (a1 & [= -> ->] & Hg).
    apply get_lb_tags_Ret in Hg as (Hf1 & _ & _). cbn [provider] in Hf1.
    exists a1. split; [reflexivity|]. intros k.
    rewrite (Hadd _ _ _ _ _ Ha Hf Hf1), <- Hl. apply overlay_to_add_lookup.
Qed.

(** X10.  What a real [absent] run returns.  Against a client whose
    [remove_tags] removes, a real run that ends in [exit_json] returns a
    dictionary that lacks every key that the load balancer held with the
    value [str(tags[k])], and holds every other tag of the load balancer
    with its value, also a tag whose key is in [tags] with another value. *)
Theorem real_absent_run_returns_the_rest
    b elb module w actual desired changed tags w1 :
  HAS_BOTO3 b = true ->
  client b "elb" (param_region module) (param_aws_access_key module)
         (param_aws_secret_key module) = inr elb ->
  param_state module = absent ->
  param_tags module = Some desired ->
  check_mode module = false ->
  lawful elb (param_name module) ->
  fetch elb (param_name module) (provider w) = Some actual ->
  main b module w = (Ret (changed, tags), w1) ->
  exists result,
    tags = TagsDict result
    /\ forall k,
         dict_get result k
         = match dict_get desired k with
           | Some dv =>
               if bool_decide (dict_get actual k = Some (py_str dv))
               then None else dict_get actual k
           | None => dict_get actual k
           end.
Proof.
  intros Hb Hc Hs Ht Hchk [_ Hrem] Hf Hm.
  rewrite (main_absent b elb module Hb Hc w actual desired Hs Ht Hf), Hchk in Hm.
  destruct (keys_to_remove actual desired) as [|k0 l] eqn:Hl.
  - injection Hm as <- <- <-. exists actual. split; [reflexivity|].
    intros k. pose proof (keys_to_remove_decide actual desired k) as Hd.
    rewrite Hl in Hd. rewrite bool_decide_eq_false_2 in Hd by (intros Hin; inversion Hin).
    destruct (dict_get desired k); [rewrite <- Hd|]; reflexivity.
  - cbv zeta in Hm.
    destruct (remove_tags elb _ _ _) as [e|s'] eqn:Hr; [discriminate|].
    apply refetch_Ret in Hm as (a1 & [= -> ->] & Hg).
    apply get_lb_tags_Ret in Hg as (Hf1 & _ & _). cbn [provider] in Hf1.
    exists a1. split; [reflexivity|]. intros k.
    rewrite (Hrem _ _ _ _ _ Hr Hf Hf1), <- Hl, keys_to_remove_decide.
    destruct (dict_get desired k); reflexivity.
Qed.

(** X11.  What a [present] check run returns.  When there is something to
    add, the check run returns the fetched dictionary with the one entry
    ["Key"] set to ["Value"], whatever the tags to add are: every other key
    is as fetched, and a key to add shows only if the load balancer held
    it. *)
Theorem present_check_run_sets_one_fixed_entry b elb module w actual desired :
  HAS_BOTO3 b = true ->
  client b "elb" (param_region module) (param_aws_access_key module)
         (param_aws_secret_key module) = inr elb ->
  param_state module = present ->
  param_tags module = Some desired ->
  check_mode module = true ->
  fetch elb (param_name module) (provider w) = Some actual ->
  (exists k dv, dict_get desired k = Some dv
                /\ dict_get actual k <> Some (py_str dv)) ->
  exists result,
    main b module w
    = (Ret (true, TagsDict result),
       World (provider w) (calls w ++ [DescribeTags [param_name module]]))
    /\ forall k,
         dict_get result k
         = if bool_decide (k = "Key") then Some "Value" else dict_get actual k.
Proof.
  intros Hb Hc Hs Ht Hchk Hf (k & dv & Hdv & Hne).
  rewrite (main_present b elb module Hb Hc w actual desired Hs Ht Hf), Hchk.
  assert (Tag k (py_str dv) ∈ tags_to_add actual desired) as Hin
    by (apply tags_to_add_spec; eauto).
  destruct (tags_to_add actual desired) as [|t l]; [inversion Hin|].
  exists (dict_set actual "Key" "Value"). split; [reflexivity|].
  intros k'. rewrite dict_get_set.
  destruct (bool_decide_reflect ("Key" = k')) as [<-|Hk].
  - reflexivity.
  - rewrite bool_decide_eq_false_2 by congruence. reflexivity.
Qed.

(** X12.  What an [absent] check run returns.  Read as a mapping, the
    value that the check run hands to [exit_json] lacks every key that the
    load balancer holds with the value [str(tags[k])] and holds every other
    tag of the load balancer with its value: it shows what a real run
    against a client whose [remove_tags] removes would return. *)
Theorem absent_check_run_shows_the_rest b elb module w actual desired :
  HAS_BOTO3 b = true ->
  client b "elb" (param_region module) (param_aws_access_key module)
         (param_aws_secret_key module) = inr elb ->
  param_state module = absent ->
  param_tags module = Some desired ->
  check_mode module = true ->
  fetch elb (param_name module) (provider w) = Some actual ->
  exists changed tags,
    main b module w
    = (Ret (changed, tags),
       World (provider w) (calls w ++ [DescribeTags [param_name module]]))
    /\ forall k,
         tags_lookup tags k
         = match dict_get desired k with
           | Some dv =>
               if bool_decide (dict_get actual k = Some (py_str dv))
               then None else dict_get actual k
           | None => dict_get actual k
           end.
Proof.
  intros Hb Hc Hs Ht Hchk Hf.
  rewrite (main_absent b elb module Hb Hc w actual desired Hs Ht Hf), Hchk.
  destruct (keys_to_remove actual desired) as [|k0 l] eqn:Hl.
  - do 2 eexists. split; [reflexivity|]. intros k. cbn [tags_lookup].
    pose proof (keys_to_remove_decide actual desired k) as Hd.
    rewrite Hl in Hd. rewrite bool_decide_eq_false_2 in Hd by (intros Hin; inversion Hin).
    destruct (dict_get desired k); [rewrite <- Hd|]; reflexivity.
  - do 2 eexists. split; [reflexivity|]. intros k. cbn [tags_lookup].
    rewrite as_dict_remaining by (apply (fetch_wf _ _ _ _ Hf)).
    rewrite <- Hl, keys_to_remove_decide.
    destruct (dict_get desired k); reflexivity.
Qed.

(** X13.  [get_lb_tags] on an answer that repeats a key keeps the value of
    the last record with that key: the dictionary holds [v] for [k] exactly
    when the list of records has a record [k], [v] with no record for [k]
    after it. *)
Theorem get_lb_tags_keeps_the_last_record elb name w r ts :
  describe_tags elb [name] (provider w) = inr r ->
  first_tags r = inr ts ->
  exists d,
    get_lb_tags elb name w
    = (Ret d, World (provider w) (calls w ++ [DescribeTags [name]]))
    /\ forall k v,
         dict_get d k = Some v <->
         exists l1 l2, ts = l1 ++ Tag k v :: l2 /\ forall t, t ∈ l2 -> Key t <> k.
Proof.
  intros Hd Hts. exists (as_dict ts). split.
  - rewrite get_lb_tags_eq, Hd, Hts. reflexivity.
  - apply as_dict_last_wins.
Qed.

(** X14.  [get_lb_tags] on an answer whose records have distinct keys
    returns the records as they come: the same pairs in the same order. *)
Theorem get_lb_tags_keeps_distinct_records elb name w r ts :
  describe_tags elb [name] (provider w) = inr r ->
  first_tags r = inr ts ->
  NoDup (map Key ts) ->
  get_lb_tags elb name w
  = (Ret (map (fun t => (Key t, Value t)) ts),
     World (provider w) (calls w ++ [DescribeTags [name]])).
Proof.
  intros Hd Hts Hnd. rewrite get_lb_tags_eq, Hd, Hts.
  change (dict_of_pairs (map (fun tag => (Key tag, Value tag)) ts)) with (as_dict ts).
  rewrite as_dict_distinct by exact Hnd. reflexivity.
Qed.

End TagResults.

(** ** More on the runs of the wait module *)

Section WaitRunMore.
Import Py Ansible Boto3Wait WaitRun.
Context {S : Type}.
Implicit Types (b : boto3 S) (w : world S event).





End WaitRunMore.

(** ** More runs against the provider of [MemElb] *)

Section TagRunsMore.
Import Py Ansible Ec2ElbTag TagRun MemElb.

Lemma check_mode_never_mutates_witness :
  provider (main mem_boto3 (on_my_lb present (Some [("a", PyStr "b")]) true)
                 (start [("my-lb", [Tag "env" "prod"])])).2
  = [("my-lb", [Tag "env" "prod"])].
Proof.
  apply (check_mode_never_mutates mem_boto3
           (on_my_lb present (Some [("a", PyStr "b")]) true)
           (start [("my-lb", [Tag "env" "prod"])]) eq_refl).
Defined.

Lemma run_issues_at_most_one_mutation_witness :
  length (issued (start [("my-lb", [Tag "env" "prod"])])
            (main mem_boto3 (on_my_lb absent (Some [("env", PyStr "prod")]) false)
                  (start [("my-lb", [Tag "env" "prod"])])).2) <= 3.
Proof.
  apply (run_issues_at_most_one_mutation mem_boto3
           (on_my_lb absent (Some [("env", PyStr "prod")]) false)
           (start [("my-lb", [Tag "env" "prod"])])).
Defined.

Lemma failures_before_the_fetch_witness :
  main (Ec2ElbTag.Boto3 store false (fun _ _ _ _ => inr mem_client))
       (on_my_lb list_tags None false) (start [])
  = (FailJson "boto3 is required for this module", start [])
  /\ main mem_boto3 (Ec2ElbTag.AnsibleModule "my-lb" list_tags None None None None false)
          (start [])
     = (FailJson region_msg, start [])
  /\ main broken_boto3 (on_my_lb list_tags None false) (start [])
     = (Raise (OtherError "Unknown service: 'elb'"), start []).
Proof.
  split; [|split].
  - apply (failures_before_the_fetch_issue_no_call
             (Ec2ElbTag.Boto3 store false (fun _ _ _ _ => inr mem_client))
             (on_my_lb list_tags None false) (start [])).
    reflexivity.
  - apply (failures_before_the_fetch_issue_no_call mem_boto3
             (Ec2ElbTag.AnsibleModule "my-lb" list_tags None None None None false)
             (start [])); reflexivity.
  - apply (failures_before_the_fetch_issue_no_call broken_boto3
             (on_my_lb list_tags None false) (start []));
      [reflexivity | reflexivity | discriminate].
Defined.

Lemma other_fetch_failures_witness :
  main (Ec2ElbTag.Boto3 store true (fun _ _ _ _ => inr unreachable_client))
       (on_my_lb list_tags None false) (start [])
  = (Raise (OtherError "Could not connect to the endpoint URL"),
     World [] [DescribeTags ["my-lb"]])
  /\ main (Ec2ElbTag.Boto3 store true (fun _ _ _ _ => inr silent_client))
          (on_my_lb list_tags None false) (start [])
     = (Raise (IndexError "list index out of range"),
        World [] [DescribeTags ["my-lb"]]).
Proof.
  split.
  - apply (other_fetch_failures_are_not_caught
             (Ec2ElbTag.Boto3 store true (fun _ _ _ _ => inr unreachable_client))
             unreachable_client (on_my_lb list_tags None false) (start [])
             eq_refl eq_refl);
      [reflexivity | discriminate].
  - apply (other_fetch_failures_are_not_caught
             (Ec2ElbTag.Boto3 store true (fun _ _ _ _ => inr silent_client))
             silent_client (on_my_lb list_tags None false) (start [])
             eq_refl eq_refl).
    reflexivity.
Defined.

Lemma empty_tags_witness :
  main mem_boto3 (on_my_lb absent (Some []) false)
       (start [("my-lb", [Tag "env" "prod"])])
  = (Ret (false, TagsDict [("env", "prod")]),
     World [("my-lb", [Tag "env" "prod"])] [DescribeTags ["my-lb"]]).
Proof.
  apply (empty_tags_change_nothing mem_boto3 mem_client
           (on_my_lb absent (Some []) false)
           (start [("my-lb", [Tag "env" "prod"])]) [("env", "prod")]
           eq_refl eq_refl eq_refl eq_refl).
Defined.

Lemma check_run_reaches_exit_json_witness :
  exists changed tags,
    main mem_boto3 (on_my_lb present (Some [("port", PyInt 80)]) true)
         (start [("my-lb", [Tag "env" "prod"])])
    = (Ret (changed, tags),
       World [("my-lb", [Tag "env" "prod"])] [DescribeTags ["my-lb"]]).
Proof.
  apply (check_run_reaches_exit_json mem_boto3 mem_client
           (on_my_lb present (Some [("port", PyInt 80)]) true)
           (start [("my-lb", [Tag "env" "prod"])]) [("env", "prod")]
           [("port", PyInt 80)] eq_refl eq_refl eq_refl eq_refl eq_refl).
Defined.

Lemma check_run_predicts_changed_witness :
  exists t',
    main mem_boto3 (on_my_lb absent (Some [("env", PyStr "prod")]) true)
         (start [("my-lb", [Tag "env" "prod"])])
    = (Ret (true, t'),
       World [("my-lb", [Tag "env" "prod"])] [DescribeTags ["my-lb"]]).
Proof.
  apply (check_run_predicts_changed mem_boto3 "my-lb" absent (Some "us-east-1")
           None None (Some [("env", PyStr "prod")])
           (start [("my-lb", [Tag "env" "prod"])])
           true (TagsDict [])
           (World [("my-lb", [])]
                  [DescribeTags ["my-lb"]; RemoveTags ["my-lb"] ["env"];
                   DescribeTags ["my-lb"]])).
  reflexivity.
Defined.


Lemma real_present_run_witness :
  exists result,
    TagsDict [("env", "prod"); ("port", "80")] = TagsDict result
    /\ forall k,
         dict_get result k
         = match dict_get [("port", PyInt 80)] k with
           | Some dv => Some (py_str dv)
           | None => dict_get [("env", "prod"); ("port", "8080")] k
           end.
Proof.
  apply (real_present_run_returns_the_overlay mem_boto3 mem_client
           (on_my_lb present (Some [("port", PyInt 80)]) false)
           (start [("my-lb", [Tag "env" "prod"; Tag "port" "8080"])])
           [("env", "prod"); ("port", "8080")] [("port", PyInt 80)]
           true (TagsDict [("env", "prod"); ("port", "80")])
           (World [("my-lb", [Tag "env" "prod"; Tag "port" "80"])]
                  [DescribeTags ["my-lb"]; AddTags ["my-lb"] [Tag "port" "80"];
                   DescribeTags ["my-lb"]])
           eq_refl eq_refl eq_refl eq_refl eq_refl (mem_client_lawful "my-lb")
           eq_refl eq_refl).
Defined.

Lemma real_absent_run_witness :
  exists result,
    TagsDict [("tier", "web")] = TagsDict result
    /\ forall k,
         dict_get result k
         = match dict_get [("env", PyStr "prod"); ("tier", PyStr "db")] k with
           | Some dv =>
               if bool_decide (dict_get [("env", "prod"); ("tier", "web")] k
                               = Some (py_str dv))
               then None else dict_get [("env", "prod"); ("tier", "web")] k
           | None => dict_get [("env", "prod"); ("tier", "web")] k
           end.
Proof.
  apply (real_absent_run_returns_the_rest mem_boto3 mem_client
           (on_my_lb absent (Some [("env", PyStr "prod"); ("tier", PyStr "db")]) false)
           (start [("my-lb", [Tag "env" "prod"; Tag "tier" "web"])])
           [("env", "prod"); ("tier", "web")]
           [("env", PyStr "prod"); ("tier", PyStr "db")]
           true (TagsDict [("tier", "web")])
           (World [("my-lb", [Tag "tier" "web"])]
                  [DescribeTags ["my-lb"]; RemoveTags ["my-lb"] ["env"];
                   DescribeTags ["my-lb"]])
           eq_refl eq_refl eq_refl eq_refl eq_refl (mem_client_lawful "my-lb")
           eq_refl eq_refl).
Defined.

Lemma present_check_run_witness :
  exists result,
    main mem_boto3 (on_my_lb present (Some [("port", PyInt 80)]) true)
         (start [("my-lb", [Tag "env" "prod"])])
    = (Ret (true, TagsDict result),
       World [("my-lb", [Tag "env" "prod"])] [DescribeTags ["my-lb"]])
    /\ dict_get result "port" = None.
Proof.
  destruct (present_check_run_sets_one_fixed_entry mem_boto3 mem_client
              (on_my_lb present (Some [("port", PyInt 80)]) true)
              (start [("my-lb", [Tag "env" "prod"])]) [("env", "prod")]
              [("port", PyInt 80)] eq_refl eq_refl eq_refl eq_refl eq_refl eq_refl)
    as (result & Hrun & Hlook).
  { exists "port", (PyInt 80). split; [reflexivity | discriminate]. }
  exists result. split; [exact Hrun|]. rewrite Hlook. reflexivity.
Defined.

Lemma absent_check_run_witness :
  exists changed tags,
    main mem_boto3 (on_my_lb absent (Some [("env", PyStr "prod")]) true)
         (start [("my-lb", [Tag "env" "prod"; Tag "tier" "web"])])
    = (Ret (changed, tags),
       World [("my-lb", [Tag "env" "prod"; Tag "tier" "web"])]
             [DescribeTags ["my-lb"]])
    /\ tags_lookup tags "env" = None
    /\ tags_lookup tags "tier" = Some "web".
Proof.
  destruct (absent_check_run_shows_the_rest mem_boto3 mem_client
              (on_my_lb absent (Some [("env", PyStr "prod")]) true)
              (start [("my-lb", [Tag "env" "prod"; Tag "tier" "web"])])
              [("env", "prod"); ("tier", "web")] [("env", PyStr "prod")]
              eq_refl eq_refl eq_refl eq_refl eq_refl eq_refl)
    as (changed & tags & Hrun & Hlook).
  exists changed, tags. split; [exact Hrun|]. rewrite !Hlook. split; reflexivity.
Defined.

Lemma get_lb_tags_last_record_witness :
  exists d,
    get_lb_tags mem_client "my-lb"
      (start [("my-lb", [Tag "env" "prod"; Tag "tier" "web"; Tag "env" "x"])])
    = (Ret d,
       World [("my-lb", [Tag "env" "prod"; Tag "tier" "web"; Tag "env" "x"])]
             [DescribeTags ["my-lb"]])
    /\ dict_get d "env" = Some "x".
Proof.
  destruct (get_lb_tags_keeps_the_last_record mem_client "my-lb"
              (start [("my-lb", [Tag "env" "prod"; Tag "tier" "web"; Tag "env" "x"])])
              (Response [TagDescription "my-lb"
                           [Tag "env" "prod"; Tag "tier" "web"; Tag "env" "x"]])
              [Tag "env" "prod"; Tag "tier" "web"; Tag "env" "x"]
              eq_refl eq_refl)
    as (d & Hrun & Hlook).
  exists d. split; [exact Hrun|]. apply Hlook.
  exists [Tag "env" "prod"; Tag "tier" "web"], []. split; [reflexivity|].
  intros t Ht. inversion Ht.
Defined.

Lemma get_lb_tags_distinct_records_witness :
  get_lb_tags mem_client "my-lb"
    (start [("my-lb", [Tag "tier" "web"; Tag "env" "prod"])])
  = (Ret [("tier", "web"); ("env", "prod")],
     World [("my-lb", [Tag "tier" "web"; Tag "env" "prod"])]
           [DescribeTags ["my-lb"]]).
Proof.
  apply (get_lb_tags_keeps_distinct_records mem_client "my-lb"
           (start [("my-lb", [Tag "tier" "web"; Tag "env" "prod"])])
           (Response [TagDescription "my-lb" [Tag "tier" "web"; Tag "env" "prod"]])
           [Tag "tier" "web"; Tag "env" "prod"] eq_refl eq_refl).
  refine (bool_decide_unpack _ _). vm_compute. exact I.
Defined.

End TagRunsMore.

(** ** More runs of the wait module *)

Section WaitRunsMore.
Import Py Ansible Boto3Wait WaitRun MemWait.




End WaitRunsMore.
